(** * Configuration service of the-anna-project: namespaces, keys, rulers,
      and the trial/replay protocol.

    The development follows the three source files:
    - [key.go]     the storage keys of a namespace,
    - [spec.go]    [labelsToNamespace], [appendToNamespace],
    - [service.go] [Boot], [Create], [Delete], [Execute], [Failure],
                   [Success].

    Go strings are byte strings and are modelled by [string]; maps are
    [gmap]s; a Go function returning [(T, error)] and mutating the service is
    a function from the state to the new state and a [result]. *)

From Stdlib Require Import String Ascii ZArith List Bool.
From stdpp Require Import base option gmap strings list sorting.

Local Open Scope string_scope.
Local Open Scope Z_scope.

(** ** Byte strings *)

(** Go's [<=] on strings is the lexicographic order on bytes: [String.leb],
    which stdpp packages as the decidable total order [String.le]. *)

(** [strings.HasPrefix(s, prefix)]. *)
Definition HasPrefix (s prefix : string) : bool := String.prefix prefix s.

(** [sort.Strings]: the slice in increasing order. *)
Definition sortStrings (l : list string) : list string :=
  merge_sort String.le l.

(** [no_byte c s]: the byte [c] does not occur in [s]. *)
Fixpoint no_byte (c : ascii) (s : string) : bool :=
  match s with
  | EmptyString => true
  | String a s' => negb (Ascii.eqb a c) && no_byte c s'
  end.

(** ** spec.go *)

Definition appendToNamespace (namespace label : string) : string :=
  namespace +:+ "-" +:+ label.

(** [sort.Strings] sorts the slice of the caller in place; the namespace is
    the sorted labels joined by dashes. *)
Definition labelsToNamespace (labels : list string) : string :=
  String.concat "-" (sortStrings labels).

(** [mappingsToKeys]: the keys of a mapping. The order in which Go ranges over
    a map is not fixed; the model takes the order of [map_to_list]. *)
Definition mappingsToKeys {V} (m : gmap string (list V)) : list string :=
  (map_to_list m).*1.

(** ** key.go *)

Definition namespaceKey (namespace : string) : string :=
  "service:configuration:namespace:" +:+ namespace.

Definition pieceListKey (namespace : string) : string :=
  namespaceKey namespace +:+ ":piece:list".

Definition pieceUsedKey (namespace : string) : string :=
  namespaceKey namespace +:+ ":piece:used".

Definition rulerListKey (namespace : string) : string :=
  namespaceKey namespace +:+ ":ruler:list".

Definition rulerUsedKey (namespace : string) : string :=
  namespaceKey namespace +:+ ":ruler:used".

(** ** Errors and results *)

(** The error values of the package ([invalidContextError], [notFoundError]).
    [maskAny] and [maskAnyf] keep the cause of an error and are the identity
    here. The storage collaborator reports a missing record with its own
    not-found error, which the service passes on masked; the specification
    calls both [NotFound], and so does the model. *)
Inductive error : Set :=
| invalidConfigError
| invalidContextError
| notFoundError.

Inductive result (A : Type) : Type :=
| Ok (a : A)
| Err (e : error).
Arguments Ok {A} a.
Arguments Err {A} e.

(** A Go method with an error result: it maps the state to the state it
    leaves behind and a result. A method which fails half way leaves the
    writes it has made. *)
Abbreviation M S A := (S → S * result A)%type.

Definition ret {S A} (a : A) : M S A := λ s, (s, Ok a).

Definition fail {S A} (e : error) : M S A := λ s, (s, Err e).

(** [x, err := c; if err != nil { return maskAny(err) }; k x] *)
Definition bind {S A B} (c : M S A) (k : A → M S B) : M S B :=
  λ s, match c s with
       | (s', Ok a) => k a s'
       | (s', Err e) => (s', Err e)
       end.

Definition get {S} : M S S := λ s, (s, Ok s).

Definition modify {S} (f : S → S) : M S unit := λ s, (f s, Ok tt).

Notation "x <- c ;; k" := (bind c (λ x, k))
  (at level 100, c at next level, right associativity).

(** [for _, x := range l { err := f x; if err != nil { return err } }] *)
Fixpoint forEach {S A} (l : list A) (f : A → M S unit) : M S unit :=
  match l with
  | [] => ret tt
  | x :: l' => _ <- f x ;; forEach l' f
  end.

(** ** The storage collaborator *)

Module Storage.

(** Modelled from the spec: the storage service
    [github.com/the-anna-project/storage] is a dependency of the package and
    is not part of it. The model follows the contract of the specification
    (section 6): scalar records and scored sets, addressed by key. The random
    choice of [GetRandomFromScoredSet] reads the next number of [entropy]. *)
Record t : Type := mk {
  scalars : gmap string string;
  scoredSets : gmap string (gmap string Z);
  entropy : list nat
}.

Definition empty : t := mk ∅ ∅ [].

(** The scored set stored under [key]; no key, no members. *)
Definition scoredSet (st : t) (key : string) : gmap string Z :=
  default ∅ (scoredSets st !! key).

(** [a] is ranked before [b]: higher score first, and among equal scores the
    greater member first. *)
Definition ranked_before (a b : string * Z) : Prop :=
  (b.2 < a.2)%Z ∨ (b.2 = a.2 ∧ String.le b.1 a.1).

Global Instance ranked_before_dec : RelDecision ranked_before.
Proof. intros a b. unfold ranked_before. apply _. Defined.

(** The members of a scored set, highest score first. *)
Definition ranking (zs : gmap string Z) : list string :=
  (merge_sort ranked_before (map_to_list zs)).*1.

(** The members of a scored set, in increasing order of their names. *)
Definition members (zs : gmap string Z) : list string :=
  merge_sort String.le (map_to_list zs).*1.

Definition Exists (key : string) : M t bool :=
  λ st, (st, Ok (bool_decide (is_Some (scalars st !! key)
                              ∨ is_Some (scoredSets st !! key)))).

Definition ExistsInScoredSet (key member : string) : M t bool :=
  λ st, (st, Ok (bool_decide (is_Some (scoredSet st key !! member)))).

Definition SetElementByScore (key member : string) (score : Z) : M t unit :=
  λ st, (mk (scalars st)
            (<[key := <[member := score]> (scoredSet st key)]> (scoredSets st))
            (entropy st),
         Ok tt).

(** An absent member counts as score 0 and is created at [delta]. *)
Definition IncrementScoredElement (key member : string) (delta : Z) : M t Z :=
  λ st, let newScore := (default 0 (scoredSet st key !! member) + delta)%Z in
        (mk (scalars st)
            (<[key := <[member := newScore]> (scoredSet st key)]> (scoredSets st))
            (entropy st),
         Ok newScore).

Definition GetHighestScoredElements (key : string) (maxElements : nat)
  : M t (list string) :=
  λ st, (st, Ok (take maxElements (ranking (scoredSet st key)))).

Definition GetRandomFromScoredSet (key : string) : M t string :=
  λ st, match members (scoredSet st key) with
        | [] => (st, Err notFoundError)
        | m :: ms =>
          let i := (hd 0%nat (entropy st) mod length (m :: ms))%nat in
          (mk (scalars st) (scoredSets st) (tl (entropy st)),
           Ok (nth i (m :: ms) m))
        end.

Definition Get (key : string) : M t string :=
  λ st, match scalars st !! key with
        | Some value => (st, Ok value)
        | None => (st, Err notFoundError)
        end.

(** [Set(key, value)]. *)
Definition Set_ (key value : string) : M t unit :=
  λ st, (mk (<[key := value]> (scalars st)) (scoredSets st) (entropy st),
         Ok tt).

Definition Remove (key : string) : M t unit :=
  λ st, (mk (delete key (scalars st)) (delete key (scoredSets st))
            (entropy st),
         Ok tt).

End Storage.

(** ** The call context *)

Module currentstage.

(** Modelled from the spec: the stage value of
    [github.com/the-anna-project/context/current/stage], of which the package
    uses the two predicates [Trial()] and [Replay()]. *)
Record Value : Set := mk { Trial : bool; Replay : bool }.

End currentstage.

(** Of a [context.Context] the package reads the current stage only. *)
Record Context : Set := { currentStage : option currentstage.Value }.

(** [currentstage.FromContext(ctx)]: the value and whether it is there. *)
Definition FromContext (ctx : Context) : option currentstage.Value :=
  currentStage ctx.

(** ** service.go *)

Definition randomRuler : string := "random".
Definition highestRuler : string := "highest".

(** [func(ctx context.Context, labels []string) (string, error)]; the rulers
    of the package use the storage of the service only. *)
Abbreviation rulerFunc := (list string → M Storage.t string).

(** The random ruler of [Boot]. *)
Definition randomRulerFunc : rulerFunc := λ labels,
  let namespace := labelsToNamespace labels in
  let key := pieceListKey namespace in
  element <- Storage.GetRandomFromScoredSet key ;;
  ret element.

(** The highest ruler of [Boot]. *)
Definition highestRulerFunc : rulerFunc := λ labels,
  let namespace := labelsToNamespace labels in
  let key := pieceListKey namespace in
  elements <- Storage.GetHighestScoredElements key 1 ;;
  match elements with
  | [element] => ret element
  | _ => fail notFoundError
  end.

(** The rulers a service can hold: those which [Boot] registers. *)
Definition bootRulers : gmap string rulerFunc :=
  <[highestRuler := highestRulerFunc]> (<[randomRuler := randomRulerFunc]> ∅).

Section service.
Context {V : Type}.

(** The service: its storage, and the internals [bootOnce], [pieces] and
    [rulers]. [V] is the type of the result values ([interface{}]). *)
Record service : Type := mkService {
  storage : Storage.t;
  bootOnce : bool;
  pieces : gmap string (list V);
  rulers : gmap string rulerFunc
}.

(** [NewService], given its dependencies: no pieces, no rulers. *)
Definition NewService (st : Storage.t) : service :=
  mkService st false ∅ ∅.

Definition withStorage (s : service) (st : Storage.t) : service :=
  mkService st (bootOnce s) (pieces s) (rulers s).

(** A call of the storage collaborator from a method of the service. *)
Definition onStorage {A} (c : M Storage.t A) : M service A :=
  λ s, let '(st, r) := c (storage s) in (withStorage s st, r).

(** An update of the local mapping [pieces], under the mutex. *)
Definition setPieces (f : gmap string (list V) → gmap string (list V))
  : M service unit :=
  modify (λ s, mkService (storage s) (bootOnce s) (f (pieces s)) (rulers s)).

(** [Boot]: [bootOnce.Do] registers the two rulers once. *)
Definition Boot (s : service) : service :=
  if bootOnce s then s
  else mkService (storage s) true (pieces s)
         (<[highestRuler := highestRulerFunc]>
            (<[randomRuler := randomRulerFunc]> (rulers s))).

Definition Create (ctx : Context) (labels : list string) (pieceID : string)
    (results : list V) : M service unit :=
  let namespace := labelsToNamespace labels in
  match FromContext ctx with
  | None => fail invalidContextError
  | Some currentStage =>
    _ <- (if currentstage.Trial currentStage then
            let key := rulerListKey namespace in
            exists_ <- onStorage (Storage.Exists key) ;;
            if negb exists_ then
              s <- get ;;
              forEach (map_to_list (rulers s)).*1 (λ k,
                onStorage (Storage.SetElementByScore key k 0))
            else ret tt
          else ret tt) ;;
    _ <- (let key := pieceListKey namespace in
          exists_ <- onStorage (Storage.ExistsInScoredSet key pieceID) ;;
          if negb exists_ then
            onStorage (Storage.SetElementByScore key pieceID 0)
          else ret tt) ;;
    let key := pieceListKey namespace in
    setPieces (<[appendToNamespace key pieceID := results]>)
  end.

Definition Delete (ctx : Context) (labels : list string) : M service unit :=
  let namespace := labelsToNamespace labels in
  _ <- (let key := rulerListKey namespace in
        onStorage (Storage.Remove key)) ;;
  _ <- (let key := pieceListKey namespace in
        onStorage (Storage.Remove key)) ;;
  let key := pieceListKey namespace in
  setPieces (filter (λ kv, HasPrefix kv.1 key = false)).

(** The block "find a ruler" of [Execute]. *)
Definition findRuler (currentStage : currentstage.Value) (namespace : string)
  : M service string :=
  rulerID <- (if currentstage.Trial currentStage then
                elements <- onStorage (Storage.GetHighestScoredElements
                                         (rulerListKey namespace) 1) ;;
                let rulerID := match elements with
                               | [] => randomRuler
                               | element :: _ => element
                               end in
                _ <- onStorage (Storage.Set_ (rulerUsedKey namespace) rulerID) ;;
                ret rulerID
              else ret "") ;;
  if currentstage.Replay currentStage then
    onStorage (Storage.Get (rulerUsedKey namespace))
  else ret rulerID.

(** The last block of [Execute]: the ruler is looked up and called, the piece
    is recorded and its results are read from [pieces]. [labels] is the slice
    of the caller, which [labelsToNamespace] has sorted in place. *)
Definition usePiece (namespace : string) (labels : list string)
    (rulerID : string) : M service (string * list V) :=
  s <- get ;;
  match rulers s !! rulerID with
  | None => fail notFoundError
  | Some ruler =>
    pieceID <- onStorage (ruler labels) ;;
    _ <- onStorage (Storage.Set_ (pieceUsedKey namespace) pieceID) ;;
    s <- get ;;
    ret (pieceID, default [] (pieces s !! pieceID))
  end.

(** [Execute]: the stage of the context, then the two blocks above. The
    ruler is called with the labels which [labelsToNamespace] has sorted. *)
Definition Execute (ctx : Context) (labels : list string)
  : M service (string * list V) :=
  let namespace := labelsToNamespace labels in
  match FromContext ctx with
  | None => fail invalidContextError
  | Some currentStage =>
    rulerID <- findRuler currentStage namespace ;;
    usePiece namespace (sortStrings labels) rulerID
  end.

Definition Failure (ctx : Context) (labels : list string) : M service unit :=
  _ <- Delete ctx labels ;;
  ret tt.

Definition Success (ctx : Context) (labels : list string) : M service unit :=
  let namespace := labelsToNamespace labels in
  _ <- (rulerID <- onStorage (Storage.Get (rulerUsedKey namespace)) ;;
        _ <- onStorage (Storage.IncrementScoredElement
                          (rulerListKey namespace) rulerID 1) ;;
        ret tt) ;;
  _ <- (pieceID <- onStorage (Storage.Get (pieceUsedKey namespace)) ;;
        _ <- onStorage (Storage.IncrementScoredElement
                          (pieceListKey namespace) pieceID 1) ;;
        ret tt) ;;
  ret tt.

(** The prefix of every storage key of the package. *)
Definition keyPrefix : string := "service:configuration:namespace:".

(** Every key of [pieces] starts with the prefix of the storage keys. This
    holds of a new service and is kept by every method: [Create] alone adds
    keys to [pieces]. *)
Definition pieces_keyed (s : service) : Prop :=
  ∀ k, is_Some (pieces s !! k) → HasPrefix k keyPrefix = true.

(** The score of a member of a scored set, 0 when it is not a member. *)
Definition score (s : service) (key member : string) : Z :=
  default 0 (Storage.scoredSet (storage s) key !! member).

(** The service after [Set(key, value)] on its storage. *)
Definition withScalar (s : service) (key value : string) : service :=
  withStorage s
    (Storage.mk (<[key := value]> (Storage.scalars (storage s)))
                (Storage.scoredSets (storage s))
                (Storage.entropy (storage s))).

(** The service after [SetElementByScore(key, member, score)]. *)
Definition withScore (s : service) (key member : string) (score : Z)
  : service :=
  withStorage s
    (Storage.mk (Storage.scalars (storage s))
                (<[key := <[member := score]>
                            (Storage.scoredSet (storage s) key)]>
                   (Storage.scoredSets (storage s)))
                (Storage.entropy (storage s))).

(** The service after [Remove(key)]. *)
Definition withoutKey (s : service) (key : string) : service :=
  withStorage s
    (Storage.mk (delete key (Storage.scalars (storage s)))
                (delete key (Storage.scoredSets (storage s)))
                (Storage.entropy (storage s))).

(** The ruler which [Execute] resolves in a trial: the first of the ranking
    of the ruler list, the random ruler when there is none. *)
Definition resolvedRuler (s : service) (namespace : string) : string :=
  match take 1 (Storage.ranking
                  (Storage.scoredSet (storage s) (rulerListKey namespace))) with
  | [] => randomRuler
  | element :: _ => element
  end.

(** The service after the loop of [Create] over the rulers: each of [names]
    is in the scored set of [key], with score 0. *)
Definition seeded (s : service) (key : string) (names : list string)
  : service :=
  foldl (λ s name, withScore s key name 0) s names.

(** The service after the first block of [Create]. *)
Definition afterRulers (currentStage : currentstage.Value) (namespace : string)
    (s : service) : service :=
  if currentstage.Trial currentStage
     && negb (bool_decide
                (is_Some (Storage.scalars (storage s)
                          !! rulerListKey namespace)
                 ∨ is_Some (Storage.scoredSets (storage s)
                            !! rulerListKey namespace)))
  then seeded s (rulerListKey namespace) (map_to_list (rulers s)).*1
  else s.

(** The service with another local mapping. *)
Definition withPieces (s : service) (p : gmap string (list V)) : service :=
  mkService (storage s) (bootOnce s) p (rulers s).

(** [ServiceConfig]: the five dependencies, each of which can be nil. The
    service calls none but the storage; of the others the model keeps whether
    they are given. *)
Record ServiceConfig : Type := {
  IDService : option unit;
  InstrumentorCollection : option unit;
  RandomService : option unit;
  StorageCollection : option Storage.t;
  WorkerService : option unit
}.

(** [NewService(config)]: the checks of the dependencies, in the order of the
    source, then the service [NewService] builds from the storage. *)
Definition NewServiceConfigured (config : ServiceConfig) : result service :=
  match IDService config with
  | None => Err invalidConfigError
  | Some _ =>
    match InstrumentorCollection config with
    | None => Err invalidConfigError
    | Some _ =>
      match RandomService config with
      | None => Err invalidConfigError
      | Some _ =>
        match StorageCollection config with
        | None => Err invalidConfigError
        | Some st =>
          match WorkerService config with
          | None => Err invalidConfigError
          | Some _ => Ok (NewService st)
          end
        end
      end
    end
  end.

(** The records of a namespace in the storage: the two used records and the
    two scored sets. *)
Definition namespaceRecords (s : service) (namespace : string)
  : option string * option string
    * option (gmap string Z) * option (gmap string Z) :=
  (Storage.scalars (storage s) !! rulerUsedKey namespace,
   Storage.scalars (storage s) !! pieceUsedKey namespace,
   Storage.scoredSets (storage s) !! rulerListKey namespace,
   Storage.scoredSets (storage s) !! pieceListKey namespace).

End service.

Arguments service V : clear implicits.

(** ** Shutdown *)

(** The fields [closer] and [shutdownOnce] of the service, which [Shutdown]
    alone uses. Nothing is ever sent on [closer]: the channel is open or
    closed. *)
Record shutdownState : Set := mkShutdown {
  shutdownOnce : bool;
  closerClosed : bool
}.

(** The two fields as [NewService] sets them. *)
Definition newShutdownState : shutdownState := mkShutdown false false.

(** [close(ch)]: closing a closed channel panics ([None]). *)
Definition close (closed : bool) : option bool :=
  if closed then None else Some true.

(** [Shutdown]: [shutdownOnce.Do] closes [closer] once. *)
Definition Shutdown (l : shutdownState) : option shutdownState :=
  if shutdownOnce l then Some l
  else match close (closerClosed l) with
       | None => None
       | Some closed => Some (mkShutdown true closed)
       end.

(** [n] calls of [Shutdown] in a row. *)
Fixpoint ShutdownTimes (n : nat) (l : shutdownState) : option shutdownState :=
  match n with
  | O => Some l
  | S n' => match Shutdown l with
            | None => None
            | Some l' => ShutdownTimes n' l'
            end
  end.

(** ** A run of the service

    The scenario of the specification: the labels stageA and featureX, the
    pieces p1 and p2, and a storage whose next random numbers are 0 and 1. *)

Definition trialContext : Context :=
  {| currentStage := Some (currentstage.mk true false) |}.

Definition replayContext : Context :=
  {| currentStage := Some (currentstage.mk false true) |}.

(** A stage which is neither a trial nor a replay. *)
Definition idleContext : Context :=
  {| currentStage := Some (currentstage.mk false false) |}.

Definition emptyContext : Context := {| currentStage := None |}.

Definition exampleLabels : list string := ["stageA"; "featureX"].

Definition bootedService : service string :=
  Boot (NewService (Storage.mk ∅ ∅ [0; 1]%nat)).

Definition twoPieces : service string :=
  (Create trialContext exampleLabels "p2" ["val2"]
     (Create trialContext exampleLabels "p1" ["val1"] bootedService).1).1.

(** The two pieces, after the highest ruler has had one success. *)
Definition twoPiecesHighest : service string :=
  withScore twoPieces (rulerListKey (labelsToNamespace exampleLabels))
    highestRuler 1.

(** The two pieces, after a trial has chosen the piece p1 with the random
    ruler and has been a success. *)
Definition scoredService : service string :=
  (Success trialContext exampleLabels
     (Execute trialContext exampleLabels twoPieces).1).1.

(** ** Facts on byte strings *)

Section string_facts.
Implicit Types s t u : string.

Lemma append_nil s : "" +:+ s = s.
Proof. done. Qed.

Lemma append_cons a s t : String a s +:+ t = String a (s +:+ t).
Proof. done. Qed.

Lemma append_assoc s t u : (s +:+ t) +:+ u = s +:+ (t +:+ u).
Proof.
  induction s as [|a s IH]; [done |]. by rewrite !append_cons, IH.
Qed.

Lemma append_inj_l s t u : s +:+ t = s +:+ u → t = u.
Proof. apply (inj (String.app s)). Qed.

Lemma prefix_append s t : String.prefix s (s +:+ t) = true.
Proof.
  induction s as [|a s IH]; [by destruct t |].
  rewrite append_cons. simpl. destruct (ascii_dec a a); [done | congruence].
Qed.

Lemma prefix_append_l s t u :
  String.prefix (s +:+ t) (s +:+ u) = String.prefix t u.
Proof.
  induction s as [|a s IH]; [done |].
  rewrite !append_cons. simpl. destruct (ascii_dec a a); [done | congruence].
Qed.

Lemma prefix_cons_inv a b s t :
  String.prefix (String a s) (String b t) = true →
  a = b ∧ String.prefix s t = true.
Proof. simpl. destruct (ascii_dec a b); [done | discriminate]. Qed.

(** Two strings free of the byte [c], each followed by [c]: if one of the
    extended strings is a prefix of the other, the two strings are equal. *)
Lemma prefix_delimited c s t u v :
  no_byte c s = true → no_byte c t = true →
  String.prefix (s +:+ String c u) (t +:+ String c v) = true → s = t.
Proof.
  revert t. induction s as [|a s IH]; intros [|b t] Hs Ht Hp;
    rewrite ?append_cons, ?append_nil in Hp; simpl in Hs, Ht.
  - done.
  - apply prefix_cons_inv in Hp as [<- _].
    rewrite Ascii.eqb_refl in Ht. done.
  - apply prefix_cons_inv in Hp as [-> _].
    rewrite Ascii.eqb_refl in Hs. done.
  - apply prefix_cons_inv in Hp as [-> Hp].
    apply andb_prop in Hs as [_ Hs]. apply andb_prop in Ht as [_ Ht].
    f_equal. eauto.
Qed.
End string_facts.

(** ** [sort.Strings] *)

Lemma sortStrings_Sorted l : Sorted String.le (sortStrings l).
Proof. apply (Sorted_merge_sort String.le). Qed.

Lemma sortStrings_Permutation l : sortStrings l ≡ₚ l.
Proof. apply (merge_sort_Permutation String.le). Qed.

Lemma sortStrings_perm_eq l1 l2 : l1 ≡ₚ l2 → sortStrings l1 = sortStrings l2.
Proof.
  intros Hp. apply (Sorted_unique String.le); auto using sortStrings_Sorted.
  by rewrite !sortStrings_Permutation.
Qed.

Lemma sortStrings_idemp l : sortStrings (sortStrings l) = sortStrings l.
Proof. apply sortStrings_perm_eq, sortStrings_Permutation. Qed.

Lemma labelsToNamespace_sorted l :
  labelsToNamespace (sortStrings l) = labelsToNamespace l.
Proof. unfold labelsToNamespace. by rewrite sortStrings_idemp. Qed.

(** ** The keys of a namespace *)

Section key_facts.
Implicit Types namespace : string.

Lemma pieceListKey_unfold namespace :
  pieceListKey namespace = keyPrefix +:+ namespace +:+ ":piece:list".
Proof. unfold pieceListKey, namespaceKey, keyPrefix. apply append_assoc. Qed.

Lemma rulerList_pieceList namespace :
  rulerListKey namespace ≠ pieceListKey namespace.
Proof. intros H. by apply append_inj_l in H. Qed.

Lemma rulerUsed_pieceUsed namespace :
  rulerUsedKey namespace ≠ pieceUsedKey namespace.
Proof. intros H. by apply append_inj_l in H. Qed.






Lemma HasPrefix_cache_key namespace pieceID :
  HasPrefix (appendToNamespace (pieceListKey namespace) pieceID) keyPrefix
  = true.
Proof.
  unfold HasPrefix, appendToNamespace, pieceListKey, namespaceKey, keyPrefix.
  rewrite !append_assoc. apply prefix_append.
Qed.

Lemma HasPrefix_pieceListKey_inv ns1 ns2 pieceID :
  no_byte ":" ns1 = true → no_byte ":" ns2 = true →
  HasPrefix (appendToNamespace (pieceListKey ns2) pieceID) (pieceListKey ns1)
  = true →
  ns1 = ns2.
Proof.
  intros H1 H2. unfold HasPrefix, appendToNamespace.
  rewrite !pieceListKey_unfold, !append_assoc, prefix_append_l.
  by apply prefix_delimited.
Qed.

End key_facts.

(** ** Namespaces *)

(** C3. The namespace of a list of labels is the namespace of each of its
    permutations: the labels are sorted in increasing order and joined by
    one dash. The labels stageA, featureX give featureX-stageA. *)
Theorem labelsToNamespace_permutation (l1 l2 : list string) :
  l1 ≡ₚ l2 →
  labelsToNamespace l1 = labelsToNamespace l2
  ∧ labelsToNamespace l1 = String.concat "-" (sortStrings l1)
  ∧ Sorted String.le (sortStrings l1)
  ∧ sortStrings l1 ≡ₚ l1
  ∧ labelsToNamespace ["stageA"; "featureX"] = "featureX-stageA".
Proof.
  intros Hp. split_and!.
  - unfold labelsToNamespace. by rewrite (sortStrings_perm_eq l1 l2).
  - done.
  - apply sortStrings_Sorted.
  - apply sortStrings_Permutation.
  - by vm_compute.
Qed.

Lemma labelsToNamespace_permutation_witness :
  labelsToNamespace ["stageA"; "featureX"]
  = labelsToNamespace ["featureX"; "stageA"].
Proof.
  apply (labelsToNamespace_permutation ["stageA"; "featureX"]
           ["featureX"; "stageA"]).
  apply perm_swap.
Defined.

(** ** Keys of the local mapping *)




(** ** Running the methods *)

Section run.
Context {V : Type} {S A B : Type}.
Implicit Types (s : service V) (k : A → M (service V) B).

Lemma bind_assoc {C} (c : M S A) (k1 : A → M S B) (k2 : B → M S C) x :
  bind (bind c k1) k2 x = bind c (λ a, bind (k1 a) k2) x.
Proof. unfold bind. by destruct (c x) as [x' [a | e]]. Qed.

Lemma bind_ret (a : A) (k : A → M S B) x : bind (ret a) k x = k a x.
Proof. done. Qed.

Lemma bind_fail e (k : A → M S B) x : bind (fail e) k x = (x, Err e).
Proof. done. Qed.

Lemma bind_get (k : S → M S B) x : bind get k x = k x x.
Proof. done. Qed.

Lemma withStorage_id s : withStorage s (storage s) = s.
Proof. by destruct s. Qed.

Lemma bind_setPieces f (k : unit → M (service V) B) s :
  bind (setPieces f) k s = k tt (withPieces s (f (pieces s))).
Proof. done. Qed.

Lemma bind_Exists key (k : bool → M (service V) B) s :
  bind (onStorage (Storage.Exists key)) k s
  = k (bool_decide (is_Some (Storage.scalars (storage s) !! key)
                    ∨ is_Some (Storage.scoredSets (storage s) !! key))) s.
Proof. unfold bind, onStorage. simpl. by rewrite withStorage_id. Qed.

Lemma bind_ExistsInScoredSet key member (k : bool → M (service V) B) s :
  bind (onStorage (Storage.ExistsInScoredSet key member)) k s
  = k (bool_decide
         (is_Some (Storage.scoredSet (storage s) key !! member))) s.
Proof. unfold bind, onStorage. simpl. by rewrite withStorage_id. Qed.

Lemma bind_SetElementByScore key member sc (k : unit → M (service V) B) s :
  bind (onStorage (Storage.SetElementByScore key member sc)) k s
  = k tt (withScore s key member sc).
Proof. done. Qed.

Lemma bind_IncrementScoredElement key member delta
    (k : Z → M (service V) B) s :
  bind (onStorage (Storage.IncrementScoredElement key member delta)) k s
  = k (score s key member + delta)%Z
      (withScore s key member (score s key member + delta)).
Proof. done. Qed.

Lemma bind_GetHighestScoredElements key n
    (k : list string → M (service V) B) s :
  bind (onStorage (Storage.GetHighestScoredElements key n)) k s
  = k (take n (Storage.ranking (Storage.scoredSet (storage s) key))) s.
Proof. unfold bind, onStorage. simpl. by rewrite withStorage_id. Qed.

Lemma bind_Get key (k : string → M (service V) B) s :
  bind (onStorage (Storage.Get key)) k s
  = match Storage.scalars (storage s) !! key with
    | Some value => k value s
    | None => (s, Err notFoundError)
    end.
Proof.
  unfold bind, onStorage, Storage.Get.
  destruct (Storage.scalars (storage s) !! key); by rewrite withStorage_id.
Qed.

Lemma bind_Set key value (k : unit → M (service V) B) s :
  bind (onStorage (Storage.Set_ key value)) k s = k tt (withScalar s key value).
Proof. done. Qed.

Lemma bind_Remove key (k : unit → M (service V) B) s :
  bind (onStorage (Storage.Remove key)) k s = k tt (withoutKey s key).
Proof. done. Qed.

End run.

Ltac run_step :=
  first
    [ rewrite bind_assoc | rewrite bind_ret | rewrite bind_fail
    | rewrite bind_get | rewrite bind_setPieces
    | rewrite bind_Exists | rewrite bind_ExistsInScoredSet
    | rewrite bind_SetElementByScore | rewrite bind_IncrementScoredElement
    | rewrite bind_GetHighestScoredElements
    | rewrite bind_Get | rewrite bind_Set | rewrite bind_Remove ].

(** The fields of an updated service. *)
Ltac fields :=
  cbn [storage bootOnce pieces rulers withStorage withScalar withScore
       withoutKey withPieces Storage.scalars Storage.scoredSets
       Storage.entropy fst snd].

(** [run] executes the statements at the head of a method; [steps] does so
    and leaves the updates of the service folded. *)
Ltac run := repeat (run_step; fields).
Ltac steps := repeat (run_step; cbv beta).

(** ** The ranking of a scored set *)

Global Instance ranked_before_total : Total Storage.ranked_before.
Proof.
  intros [m1 z1] [m2 z2]. unfold Storage.ranked_before. simpl.
  destruct (Z.lt_trichotomy z1 z2) as [? | [-> | ?]];
    [by right; left | | by left; left].
  destruct (total String.le m1 m2); [right | left]; by right.
Qed.

Global Instance ranked_before_trans : Transitive Storage.ranked_before.
Proof.
  intros [m1 z1] [m2 z2] [m3 z3]. unfold Storage.ranked_before. simpl.
  intros [? | [-> ?]] [? | [-> ?]]; [left; lia | by left | by left |].
  right. split; [done | by etrans].
Qed.

Lemma ranking_nil (zs : gmap string Z) : Storage.ranking zs = [] ↔ zs = ∅.
Proof.
  unfold Storage.ranking. split.
  - intros H. apply fmap_nil_inv in H. apply map_to_list_empty_iff.
    apply Permutation_nil_r. rewrite <- H.
    by rewrite merge_sort_Permutation.
  - intros ->. by rewrite map_to_list_empty.
Qed.

Lemma ranking_head (zs : gmap string Z) r l :
  Storage.ranking zs = r :: l →
  ∃ sc, zs !! r = Some sc ∧ ∀ m sc', zs !! m = Some sc' → (sc' ≤ sc)%Z.
Proof.
  unfold Storage.ranking. intros H.
  pose proof (StronglySorted_merge_sort Storage.ranked_before
                (map_to_list zs)) as Hs.
  pose proof (merge_sort_Permutation Storage.ranked_before
                (map_to_list zs)) as Hp.
  destruct (merge_sort Storage.ranked_before (map_to_list zs))
    as [|[r' sc] L]; simplify_eq/=.
  apply StronglySorted_inv in Hs as [_ Hall].
  exists sc. split.
  - apply elem_of_map_to_list. rewrite <- Hp. left.
  - intros m sc' Hm. apply elem_of_map_to_list in Hm.
    rewrite <- Hp in Hm.
    apply elem_of_cons in Hm as [[= -> ->] | Hm]; [lia |].
    rewrite Forall_forall in Hall. apply Hall in Hm.
    unfold Storage.ranked_before in Hm. simpl in Hm. lia.
Qed.

Lemma members_elem_of (zs : gmap string Z) m :
  m ∈ Storage.members zs ↔ is_Some (zs !! m).
Proof.
  unfold Storage.members. rewrite merge_sort_Permutation.
  rewrite list_elem_of_fmap. split.
  - intros ([m' sc] & -> & H). apply elem_of_map_to_list in H. by exists sc.
  - intros [sc H]. exists (m, sc). split; [done |].
    by apply elem_of_map_to_list.
Qed.

(** The random choice is a member of the scored set. *)
Lemma GetRandomFromScoredSet_member key st st' member :
  Storage.GetRandomFromScoredSet key st = (st', Ok member) →
  is_Some (Storage.scoredSet st key !! member).
Proof.
  unfold Storage.GetRandomFromScoredSet. intros H.
  apply members_elem_of.
  destruct (Storage.members (Storage.scoredSet st key)) as [|m ms]; [done |].
  set (l := m :: ms) in *.
  set (i := (hd 0 (Storage.entropy st) mod length l)%nat) in *.
  assert (member = nth i l m) as -> by congruence.
  apply list_elem_of_In, nth_In, Nat.mod_upper_bound. done.
Qed.

Lemma members_empty : Storage.members ∅ = [].
Proof. unfold Storage.members. by rewrite map_to_list_empty. Qed.

(** ** The rulers *)

Lemma bootRulers_lookup name f :
  bootRulers !! name = Some f →
  (name = randomRuler ∧ f = randomRulerFunc)
  ∨ (name = highestRuler ∧ f = highestRulerFunc).
Proof.
  unfold bootRulers. intros H.
  apply lookup_insert_Some in H as [[<- <-]|[? H]]; [by right|].
  apply lookup_insert_Some in H as [[<- <-]|[? H]]; [by left|].
  done.
Qed.

Lemma highestRulerFunc_run labels st :
  highestRulerFunc labels st
  = (st, match take 1 (Storage.ranking
                         (Storage.scoredSet st
                            (pieceListKey (labelsToNamespace labels)))) with
         | [element] => Ok element
         | _ => Err notFoundError
         end).
Proof.
  unfold highestRulerFunc, bind, Storage.GetHighestScoredElements.
  by destruct (take 1 _) as [|? [|]].
Qed.

Lemma randomRulerFunc_run labels st :
  randomRulerFunc labels st
  = Storage.GetRandomFromScoredSet
      (pieceListKey (labelsToNamespace labels)) st.
Proof.
  unfold randomRulerFunc, bind.
  by destruct (Storage.GetRandomFromScoredSet _ st) as [? []].
Qed.

(** ** Execute *)

Section execute.
Context {V : Type}.
Implicit Types s : service V.

Lemma usePiece_run namespace labels rulerID s :
  usePiece namespace labels rulerID s
  = match rulers s !! rulerID with
    | None => (s, Err notFoundError)
    | Some ruler =>
      match ruler labels (storage s) with
      | (st, Ok pieceID) =>
        (withScalar (withStorage s st) (pieceUsedKey namespace) pieceID,
         Ok (pieceID, default [] (pieces s !! pieceID)))
      | (st, Err e) => (withStorage s st, Err e)
      end
    end.
Proof.
  unfold usePiece. run. destruct (rulers s !! rulerID) as [ruler|]; [| done].
  unfold bind at 1. unfold onStorage at 1.
  destruct (ruler labels (storage s)) as [st [pieceID | e]]; [| done].
  by run.
Qed.

Lemma Execute_absent ctx labels s :
  FromContext ctx = None → Execute ctx labels s = (s, Err invalidContextError).
Proof. intros H. unfold Execute. by rewrite H. Qed.

Lemma Execute_trial ctx currentStage labels s :
  let namespace := labelsToNamespace labels in
  let rulerID := resolvedRuler s namespace in
  FromContext ctx = Some currentStage →
  currentstage.Trial currentStage = true →
  Execute ctx labels s
  = usePiece namespace (sortStrings labels) rulerID
      (withScalar s (rulerUsedKey namespace) rulerID).
Proof.
  intros namespace rulerID H Ht. unfold Execute, findRuler.
  rewrite H, Ht. fold namespace. run. fold (resolvedRuler s namespace).
  fold rulerID. destruct (currentstage.Replay currentStage); run; [| done].
  by rewrite lookup_insert_eq.
Qed.

Lemma Execute_replay ctx currentStage labels s :
  let namespace := labelsToNamespace labels in
  FromContext ctx = Some currentStage →
  currentstage.Trial currentStage = false →
  currentstage.Replay currentStage = true →
  Execute ctx labels s
  = match Storage.scalars (storage s) !! rulerUsedKey namespace with
    | Some rulerID => usePiece namespace (sortStrings labels) rulerID s
    | None => (s, Err notFoundError)
    end.
Proof.
  intros namespace H Ht Hr. unfold Execute, findRuler.
  rewrite H, Ht, Hr. fold namespace. by run.
Qed.

Lemma Execute_neither ctx currentStage labels s :
  let namespace := labelsToNamespace labels in
  FromContext ctx = Some currentStage →
  currentstage.Trial currentStage = false →
  currentstage.Replay currentStage = false →
  Execute ctx labels s = usePiece namespace (sortStrings labels) "" s.
Proof.
  intros namespace H Ht Hr. unfold Execute, findRuler.
  rewrite H, Ht, Hr. fold namespace. by run.
Qed.

(** A service holds the rulers of [Boot], or none before [Boot]. *)
Lemma rulers_NewService st : rulers (NewService (V:=V) st) ⊆ bootRulers.
Proof. apply map_empty_subseteq. Qed.

Lemma rulers_Boot s : rulers s ⊆ bootRulers → rulers (Boot s) ⊆ bootRulers.
Proof.
  intros Hsub. unfold Boot. destruct (bootOnce s); [done |].
  cbn [rulers]. by repeat apply insert_subseteq_l.
Qed.

Lemma bootRulers_empty_name : bootRulers !! "" = None.
Proof. done. Qed.

Lemma rulers_empty_name s : rulers s ⊆ bootRulers → rulers s !! "" = None.
Proof.
  intros Hsub. destruct (rulers s !! "") as [f|] eqn:E; [| done].
  eapply lookup_weaken in E; [| done]. by rewrite bootRulers_empty_name in E.
Qed.

End execute.

(** The scenario of the specification: the two calls of [Create] in a trial
    seed the rulers and the pieces with score 0, and [Execute] resolves the
    random ruler, which is ranked first among the rulers of score 0. *)
Example twoPieces_seeded :
  let namespace := labelsToNamespace exampleLabels in
  Storage.scoredSet (storage twoPieces) (rulerListKey namespace)
  = {[ "random" := 0%Z; "highest" := 0%Z ]}
  ∧ Storage.scoredSet (storage twoPieces) (pieceListKey namespace)
    = {[ "p1" := 0%Z; "p2" := 0%Z ]}
  ∧ resolvedRuler twoPieces namespace = "random".
Proof. split_and!; by vm_compute. Qed.

(** ** Execute without Create *)

Section stage.
Context {V : Type}.
Implicit Types s : service V.

Lemma usePiece_no_pieces namespace labels rulerID s :
  rulers s ⊆ bootRulers →
  Storage.scoredSets (storage s) !! pieceListKey (labelsToNamespace labels)
  = None →
  (usePiece namespace labels rulerID s).2 = Err notFoundError.
Proof.
  intros Hsub Hpl. rewrite usePiece_run.
  destruct (rulers s !! rulerID) as [f|] eqn:E; [| done].
  eapply lookup_weaken in E; [| done].
  apply bootRulers_lookup in E as [[_ ->] | [_ ->]].
  - rewrite randomRulerFunc_run. unfold Storage.GetRandomFromScoredSet.
    unfold Storage.scoredSet. rewrite Hpl. simpl. by rewrite members_empty.
  - rewrite highestRulerFunc_run. unfold Storage.scoredSet. rewrite Hpl.
    simpl. by rewrite (proj2 (ranking_nil ∅)).
Qed.

(** C9. For a namespace without ruler list, piece list and used ruler
    record, [Execute] fails with the not found error, whatever the stage of
    the call says, whether [Boot] has run or not. *)
Theorem Execute_without_Create ctx currentStage labels s :
  let namespace := labelsToNamespace labels in
  FromContext ctx = Some currentStage →
  rulers s ⊆ bootRulers →
  Storage.scoredSets (storage s) !! rulerListKey namespace = None →
  Storage.scoredSets (storage s) !! pieceListKey namespace = None →
  Storage.scalars (storage s) !! rulerUsedKey namespace = None →
  (Execute ctx labels s).2 = Err notFoundError.
Proof.
  intros namespace H Hsub Hrl Hpl Hru.
  destruct (currentstage.Trial currentStage) eqn:Ht;
    [| destruct (currentstage.Replay currentStage) eqn:Hr].
  - rewrite (Execute_trial ctx currentStage) by done.
    apply usePiece_no_pieces; [done |].
    by rewrite labelsToNamespace_sorted.
  - rewrite (Execute_replay ctx currentStage) by done.
    fold namespace. by rewrite Hru.
  - rewrite (Execute_neither ctx currentStage) by done.
    apply usePiece_no_pieces; [done |].
    by rewrite labelsToNamespace_sorted.
Qed.

End stage.

Lemma Execute_without_Create_witness :
  (Execute trialContext exampleLabels
     (Boot (NewService (V:=string) Storage.empty))).2 = Err notFoundError
  ∧ (Execute replayContext exampleLabels
       (Boot (NewService (V:=string) Storage.empty))).2 = Err notFoundError.
Proof.
  split.
  - by apply (Execute_without_Create trialContext
                (currentstage.mk true false)).
  - by apply (Execute_without_Create replayContext
                (currentstage.mk false true)).
Defined.

(** ** The ruler and the piece of a call *)

Section use_piece.
Context {V : Type}.
Implicit Types s : service V.

Lemma rulers_lookup_boot s rulerID f :
  rulers s ⊆ bootRulers → rulers s !! rulerID = Some f →
  (rulerID = randomRuler ∧ f = randomRulerFunc)
  ∨ (rulerID = highestRuler ∧ f = highestRulerFunc).
Proof.
  intros Hsub E. eapply lookup_weaken in E; [| done].
  by apply bootRulers_lookup.
Qed.

Lemma usePiece_highest namespace labels s :
  rulers s !! highestRuler = Some highestRulerFunc →
  usePiece namespace labels highestRuler s
  = match take 1 (Storage.ranking
                    (Storage.scoredSet (storage s)
                       (pieceListKey (labelsToNamespace labels)))) with
    | [pieceID] =>
      (withScalar s (pieceUsedKey namespace) pieceID,
       Ok (pieceID, default [] (pieces s !! pieceID)))
    | _ => (s, Err notFoundError)
    end.
Proof.
  intros E. rewrite usePiece_run, E, highestRulerFunc_run.
  destruct (take 1 _) as [|? [|]]; by rewrite ?withStorage_id.
Qed.

(** With the rulers of [Boot], the last block of [Execute] writes the used
    piece record and nothing else, but for the number a random choice uses
    up. *)
Lemma usePiece_frame namespace labels rulerID s :
  rulers s ⊆ bootRulers →
  let s' := (usePiece namespace labels rulerID s).1 in
  Storage.scoredSets (storage s') = Storage.scoredSets (storage s)
  ∧ pieces s' = pieces s
  ∧ rulers s' = rulers s
  ∧ ∀ key, key ≠ pieceUsedKey namespace →
      Storage.scalars (storage s') !! key = Storage.scalars (storage s) !! key.
Proof.
  intros Hsub. rewrite usePiece_run.
  destruct (rulers s !! rulerID) as [f|] eqn:E; [| done].
  apply (rulers_lookup_boot _ _ _ Hsub) in E as [[_ ->] | [_ ->]].
  - rewrite randomRulerFunc_run. unfold Storage.GetRandomFromScoredSet.
    destruct (Storage.members _) as [|m ms]; [done |]. fields.
    split_and!; try done. intros key Hk. by rewrite lookup_insert_ne.
  - rewrite highestRulerFunc_run.
    destruct (take 1 _) as [|? [|]]; fields; split_and!; try done.
    intros key Hk. by rewrite lookup_insert_ne.
Qed.

Lemma usePiece_Ok_boot namespace labels rulerID s s' pieceID results :
  rulers s ⊆ bootRulers →
  usePiece namespace labels rulerID s = (s', Ok (pieceID, results)) →
  rulers s !! rulerID
  = Some (if decide (rulerID = highestRuler) then highestRulerFunc
          else randomRulerFunc).
Proof.
  intros Hsub. rewrite usePiece_run.
  destruct (rulers s !! rulerID) as [f|] eqn:E; [| done]. intros _.
  by apply (rulers_lookup_boot _ _ _ Hsub) in E as [[-> ->] | [-> ->]].
Qed.

End use_piece.

(** ** The stage signal *)

(** C5, as the claim states it, fails: with a stage that is neither a trial
    nor a replay, [Execute] fails with the not found error. *)
Lemma Execute_idle_not_found :
  FromContext idleContext = Some (currentstage.mk false false)
  ∧ (Execute idleContext exampleLabels twoPieces).2 = Err notFoundError
  ∧ (Execute idleContext exampleLabels twoPieces).2 ≠ Err invalidContextError.
Proof. split_and!; by vm_compute. Qed.

Section stage_signal.
Context {V : Type}.
Implicit Types s : service V.

Lemma usePiece_error namespace labels rulerID s e :
  rulers s ⊆ bootRulers →
  (usePiece namespace labels rulerID s).2 = Err e → e = notFoundError.
Proof.
  intros Hsub. rewrite usePiece_run.
  destruct (rulers s !! rulerID) as [f|] eqn:E; [| by intros [= <-]].
  apply (rulers_lookup_boot _ _ _ Hsub) in E as [[_ ->] | [_ ->]].
  - rewrite randomRulerFunc_run. unfold Storage.GetRandomFromScoredSet.
    destruct (Storage.members _) as [|m ms]; [by intros [= <-] | done].
  - rewrite highestRulerFunc_run.
    destruct (take 1 _) as [|? [|]]; by try intros [= <-].
Qed.

(** C5, amended. [Execute] fails with the invalid context error exactly when
    the context carries no stage. With a stage which is neither a trial nor
    a replay it fails with the not found error, the state unchanged. *)
Theorem Execute_stage_signal ctx labels s :
  rulers s ⊆ bootRulers →
  (FromContext ctx = None →
   Execute ctx labels s = (s, Err invalidContextError))
  ∧ ((Execute ctx labels s).2 = Err invalidContextError →
     FromContext ctx = None)
  ∧ (∀ currentStage,
       FromContext ctx = Some currentStage →
       currentstage.Trial currentStage = false →
       currentstage.Replay currentStage = false →
       Execute ctx labels s = (s, Err notFoundError)).
Proof.
  intros Hsub. split_and!.
  - apply Execute_absent.
  - destruct (FromContext ctx) as [currentStage|] eqn:H; [| done].
    intros He. exfalso.
    destruct (currentstage.Trial currentStage) eqn:Ht;
      [| destruct (currentstage.Replay currentStage) eqn:Hr].
    + rewrite (Execute_trial ctx currentStage) in He by done.
      by apply usePiece_error in He.
    + rewrite (Execute_replay ctx currentStage) in He by done.
      destruct (Storage.scalars (storage s) !! _); [| done].
      by apply usePiece_error in He.
    + rewrite (Execute_neither ctx currentStage) in He by done.
      by apply usePiece_error in He.
  - intros currentStage H Ht Hr.
    rewrite (Execute_neither ctx currentStage) by done.
    rewrite usePiece_run. by rewrite rulers_empty_name.
Qed.

End stage_signal.

Lemma Execute_stage_signal_witness :
  Execute emptyContext exampleLabels bootedService
  = (bootedService, Err invalidContextError)
  ∧ Execute idleContext exampleLabels bootedService
    = (bootedService, Err notFoundError).
Proof.
  destruct (Execute_stage_signal emptyContext exampleLabels bootedService)
    as (H1 & _ & _); [reflexivity |].
  destruct (Execute_stage_signal idleContext exampleLabels bootedService)
    as (_ & _ & H2); [reflexivity |].
  split; [by apply H1 | by eapply H2].
Defined.

(** ** Trial and replay *)

Section trial.
Context {V : Type}.
Implicit Types s : service V.

Lemma resolvedRuler_highest s namespace :
  let rulerList := Storage.scoredSet (storage s) (rulerListKey namespace) in
  (rulerList = ∅ ∧ resolvedRuler s namespace = randomRuler)
  ∨ (∃ sc, rulerList !! resolvedRuler s namespace = Some sc
           ∧ ∀ member sc', rulerList !! member = Some sc' → (sc' ≤ sc)%Z).
Proof.
  intros rulerList. unfold resolvedRuler. fold rulerList.
  destruct (Storage.ranking rulerList) as [|r l] eqn:E.
  - left. by apply ranking_nil in E.
  - right. by apply ranking_head in E.
Qed.


End trial.


(** C1, as the claim states it, fails: with the random ruler recorded, the
    trial chooses the piece p1 and the replay that follows chooses p2. *)
Lemma replay_random_differs :
  (Execute trialContext exampleLabels twoPieces).2 = Ok ("p1", [])
  ∧ Storage.scalars (storage (Execute trialContext exampleLabels twoPieces).1)
    !! rulerUsedKey (labelsToNamespace exampleLabels) = Some randomRuler
  ∧ (Execute replayContext exampleLabels
       (Execute trialContext exampleLabels twoPieces).1).2 = Ok ("p2", []).
Proof. split_and!; by vm_compute. Qed.

Section replay.
Context {V : Type}.
Implicit Types s : service V.

Lemma usePiece_highest_eq namespace labels s1 s2 :
  rulers s1 !! highestRuler = Some highestRulerFunc →
  rulers s2 = rulers s1 →
  pieces s2 = pieces s1 →
  Storage.scoredSets (storage s2) = Storage.scoredSets (storage s1) →
  (usePiece namespace labels highestRuler s2).2
  = (usePiece namespace labels highestRuler s1).2.
Proof.
  intros E Hr Hp Hz. rewrite !usePiece_highest by congruence.
  unfold Storage.scoredSet. rewrite Hz, Hp.
  by destruct (take 1 _) as [|? [|]].
Qed.

(** C1, amended. When the trial has recorded the highest ruler, the replay
    that follows it returns the piece and the results of the trial. *)
Theorem replay_reproduces_highest ctx1 ctx2 stage1 stage2 labels s
    pieceID results :
  let namespace := labelsToNamespace labels in
  let s1 := (Execute ctx1 labels s).1 in
  FromContext ctx1 = Some stage1 → currentstage.Trial stage1 = true →
  FromContext ctx2 = Some stage2 → currentstage.Replay stage2 = true →
  rulers s ⊆ bootRulers →
  (Execute ctx1 labels s).2 = Ok (pieceID, results) →
  Storage.scalars (storage s1) !! rulerUsedKey namespace = Some highestRuler →
  (Execute ctx2 labels s1).2 = Ok (pieceID, results).
Proof.
  intros namespace s1 H1 Ht1 H2 Hr2 Hsub Hex Hused.
  set (written := withScalar s (rulerUsedKey namespace)
                    (resolvedRuler s namespace)).
  assert (rulers written ⊆ bootRulers) as Hsubw by done.
  pose proof (Execute_trial ctx1 stage1 labels s H1 Ht1) as Htrial.
  cbv zeta in Htrial. fold namespace written in Htrial.
  assert (Execute ctx1 labels s = (s1, Ok (pieceID, results))) as Hex'.
  { unfold s1. rewrite <- Hex. apply surjective_pairing. }
  clear Hex. rewrite Hex' in Htrial. symmetry in Htrial.
  destruct (usePiece_frame namespace (sortStrings labels)
              (resolvedRuler s namespace) written Hsubw)
    as (Hz & Hp & Hr & Hsc).
  rewrite Htrial in Hz, Hp, Hr, Hsc. cbn [fst] in Hz, Hp, Hr, Hsc.
  (* the trial has resolved the highest ruler *)
  assert (resolvedRuler s namespace = highestRuler) as Hres.
  { specialize (Hsc (rulerUsedKey namespace) (rulerUsed_pieceUsed _)).
    rewrite Hused in Hsc. unfold written in Hsc. revert Hsc. fields.
    rewrite lookup_insert_eq. congruence. }
  rewrite Hres in Htrial.
  pose proof (usePiece_Ok_boot _ _ _ _ _ _ _ Hsubw Htrial) as E.
  rewrite decide_True in E by done.
  assert (rulers s1 !! highestRuler = Some highestRulerFunc) as E1
    by by rewrite Hr.
  assert ((usePiece namespace (sortStrings labels) highestRuler s1).2
          = Ok (pieceID, results)) as Hsame.
  { rewrite (usePiece_highest_eq _ _ written s1), Htrial; done. }
  destruct (currentstage.Trial stage2) eqn:Ht2.
  - rewrite (Execute_trial ctx2 stage2) by done. fold namespace.
    assert (resolvedRuler s1 namespace = highestRuler) as ->.
    { rewrite <- Hres. unfold resolvedRuler, Storage.scoredSet.
      by rewrite Hz. }
    rewrite <- Hsame. by apply usePiece_highest_eq.
  - rewrite (Execute_replay ctx2 stage2) by done. fold namespace.
    by rewrite Hused.
Qed.

End replay.

Lemma replay_reproduces_highest_witness :
  (Execute replayContext exampleLabels
     (Execute trialContext exampleLabels twoPiecesHighest).1).2
  = Ok ("p2", []).
Proof.
  apply (replay_reproduces_highest trialContext replayContext
           (currentstage.mk true false) (currentstage.mk false true)
           exampleLabels twoPiecesHighest).
  - reflexivity.
  - reflexivity.
  - reflexivity.
  - reflexivity.
  - reflexivity.
  - vm_compute. reflexivity.
  - vm_compute. reflexivity.
Defined.

(** ** Delete and Failure *)

Section delete.
Context {V : Type}.
Implicit Types s : service V.

Lemma Delete_run ctx labels s :
  let namespace := labelsToNamespace labels in
  Delete ctx labels s
  = (withPieces
       (withoutKey (withoutKey s (rulerListKey namespace))
          (pieceListKey namespace))
       (filter (λ kv, HasPrefix kv.1 (pieceListKey namespace) = false)
          (pieces s)),
     Ok tt).
Proof. intros namespace. unfold Delete. fold namespace. by run. Qed.

Lemma Failure_Delete ctx labels s : Failure ctx labels s = Delete ctx labels s.
Proof. unfold Failure, bind. by rewrite Delete_run. Qed.


End delete.



(** ** Success *)

Section success.
Context {V : Type}.
Implicit Types s : service V.

Lemma scoredSet_withScore s key member sc key' :
  Storage.scoredSet (storage (withScore s key member sc)) key'
  = if decide (key = key') then <[member := sc]> (Storage.scoredSet (storage s) key)
    else Storage.scoredSet (storage s) key'.
Proof.
  unfold Storage.scoredSet at 1. fields. rewrite lookup_insert.
  by destruct (decide (key = key')) as [<- |].
Qed.

Lemma score_withScore s key member sc key' member' :
  score (withScore s key member sc) key' member'
  = if decide (key = key' ∧ member = member') then sc
    else score s key' member'.
Proof.
  unfold score. rewrite scoredSet_withScore.
  destruct (decide (key = key')) as [<- |].
  - rewrite lookup_insert. destruct (decide (member = member')) as [<- |].
    + by rewrite decide_True.
    + rewrite decide_False; [done | by intros [_ ?]].
  - rewrite decide_False; [done | by intros [? _]].
Qed.

Lemma Success_run ctx labels s :
  let namespace := labelsToNamespace labels in
  Success ctx labels s
  = match Storage.scalars (storage s) !! rulerUsedKey namespace with
    | None => (s, Err notFoundError)
    | Some rulerID =>
      let s1 := withScore s (rulerListKey namespace) rulerID
                  (score s (rulerListKey namespace) rulerID + 1) in
      match Storage.scalars (storage s) !! pieceUsedKey namespace with
      | None => (s1, Err notFoundError)
      | Some pieceID =>
        (withScore s1 (pieceListKey namespace) pieceID
           (score s (pieceListKey namespace) pieceID + 1),
         Ok tt)
      end
    end.
Proof.
  intros namespace. unfold Success. fold namespace. steps.
  destruct (Storage.scalars (storage s) !! rulerUsedKey namespace)
    as [rulerID|]; [| done].
  steps. change (Storage.scalars (storage (withScore ?s _ _ _)))
           with (Storage.scalars (storage s)).
  destruct (Storage.scalars (storage s) !! pieceUsedKey namespace)
    as [pieceID|]; [| done].
  steps. rewrite score_withScore.
  rewrite decide_False; [done |]. intros [H _].
  by apply rulerList_pieceList in H.
Qed.

(** C7. When the used ruler record and the used piece record of the
    namespace are there, [Success] succeeds; it raises the score of the
    recorded ruler in the ruler list by one and the score of the recorded
    piece in the piece list by one, and changes no other score, no record and
    no entry of the local mapping. When one of the two records is missing,
    [Success] fails with the error of the read. *)
Theorem Success_increments ctx labels s :
  let namespace := labelsToNamespace labels in
  let s' := (Success ctx labels s).1 in
  match Storage.scalars (storage s) !! rulerUsedKey namespace,
        Storage.scalars (storage s) !! pieceUsedKey namespace with
  | Some rulerID, Some pieceID =>
    (Success ctx labels s).2 = Ok tt
    ∧ Storage.scoredSet (storage s') (rulerListKey namespace) !! rulerID
      = Some (score s (rulerListKey namespace) rulerID + 1)%Z
    ∧ Storage.scoredSet (storage s') (pieceListKey namespace) !! pieceID
      = Some (score s (pieceListKey namespace) pieceID + 1)%Z
    ∧ (∀ key member,
         (key, member) ≠ (rulerListKey namespace, rulerID) →
         (key, member) ≠ (pieceListKey namespace, pieceID) →
         Storage.scoredSet (storage s') key !! member
         = Storage.scoredSet (storage s) key !! member)
    ∧ (∀ key, key ≠ rulerListKey namespace → key ≠ pieceListKey namespace →
              Storage.scoredSets (storage s') !! key
              = Storage.scoredSets (storage s) !! key)
    ∧ Storage.scalars (storage s') = Storage.scalars (storage s)
    ∧ Storage.entropy (storage s') = Storage.entropy (storage s)
    ∧ pieces s' = pieces s
    ∧ rulers s' = rulers s
  | None, _ => Success ctx labels s = (s, Err notFoundError)
  | Some _, None => (Success ctx labels s).2 = Err notFoundError
  end.
Proof.
  intros namespace s'. unfold s'. rewrite Success_run. fold namespace.
  destruct (Storage.scalars (storage s) !! rulerUsedKey namespace)
    as [rulerID|]; [| done].
  destruct (Storage.scalars (storage s) !! pieceUsedKey namespace)
    as [pieceID|]; [| done].
  cbv zeta. cbn [fst snd].
  pose proof (rulerList_pieceList namespace) as Hne.
  split_and!; try done.
  - rewrite !scoredSet_withScore. rewrite decide_False by done.
    rewrite decide_True by done. by rewrite lookup_insert_eq.
  - rewrite !scoredSet_withScore. rewrite decide_True by done.
    rewrite decide_False by done. by rewrite lookup_insert_eq.
  - intros key member H1 H2. rewrite !scoredSet_withScore.
    destruct (decide (pieceListKey namespace = key)) as [<- |].
    + rewrite decide_False by done. by rewrite lookup_insert_ne by congruence.
    + destruct (decide (rulerListKey namespace = key)) as [<- |]; [| done].
      by rewrite lookup_insert_ne by congruence.
  - intros key H1 H2. fields. by rewrite !lookup_insert_ne.
Qed.

End success.

Lemma Success_increments_witness :
  let s := (Execute trialContext exampleLabels twoPieces).1 in
  let namespace := labelsToNamespace exampleLabels in
  (Success trialContext exampleLabels s).2 = Ok tt
  ∧ Storage.scoredSet (storage (Success trialContext exampleLabels s).1)
      (rulerListKey namespace) !! "random" = Some 1%Z
  ∧ Storage.scoredSet (storage (Success trialContext exampleLabels s).1)
      (pieceListKey namespace) !! "p1" = Some 1%Z.
Proof.
  intros s namespace.
  assert (Storage.scalars (storage s) !! rulerUsedKey namespace
          = Some "random") as Hr by (vm_compute; reflexivity).
  assert (Storage.scalars (storage s) !! pieceUsedKey namespace
          = Some "p1") as Hp by (vm_compute; reflexivity).
  pose proof (Success_increments trialContext exampleLabels s) as H.
  cbv zeta in H. fold namespace in H. rewrite Hr, Hp in H.
  destruct H as (H1 & H2 & H3 & _).
  split_and!; [exact H1 | rewrite H2 | rewrite H3]; vm_compute; reflexivity.
Defined.

(** ** Create *)

Section create.
Context {V : Type}.
Implicit Types s : service V.

Lemma bind_forEach_seed {B} names key (k : unit → M (service V) B) s :
  bind (forEach names
          (λ name, onStorage (Storage.SetElementByScore key name 0))) k s
  = k tt (seeded s key names).
Proof.
  revert s. induction names as [|name names IH]; intros s; [done |].
  simpl forEach. rewrite bind_assoc, bind_SetElementByScore. apply IH.
Qed.

Lemma seeded_frame s key names :
  pieces (seeded s key names) = pieces s
  ∧ rulers (seeded s key names) = rulers s
  ∧ Storage.scalars (storage (seeded s key names))
    = Storage.scalars (storage s)
  ∧ ∀ key', key' ≠ key →
      Storage.scoredSet (storage (seeded s key names)) key'
      = Storage.scoredSet (storage s) key'.
Proof.
  revert s. induction names as [|name names IH]; intros s; [done |].
  destruct (IH (withScore s key name 0)) as (Hp & Hr & Hsc & Hz).
  simpl seeded. split_and!; [by rewrite Hp | by rewrite Hr | by rewrite Hsc |].
  intros key' Hk. rewrite Hz by done. rewrite scoredSet_withScore.
  by rewrite decide_False.
Qed.

Lemma Create_run ctx currentStage labels pieceID results s :
  let namespace := labelsToNamespace labels in
  let key := pieceListKey namespace in
  let s1 := afterRulers currentStage namespace s in
  let s2 := if bool_decide (is_Some (Storage.scoredSet (storage s1) key
                                     !! pieceID))
            then s1 else withScore s1 key pieceID 0 in
  FromContext ctx = Some currentStage →
  Create ctx labels pieceID results s
  = (withPieces s2 (<[appendToNamespace key pieceID := results]> (pieces s2)),
     Ok tt).
Proof.
  intros namespace key s1 s2 H. unfold Create. rewrite H.
  fold namespace key. subst s2 s1. unfold afterRulers.
  destruct (currentstage.Trial currentStage); cbn [andb negb]; steps.
  - destruct (bool_decide (_ ∨ _)); cbn [andb negb]; steps.
    + destruct (bool_decide _); cbn [andb negb]; by steps.
    + rewrite bind_forEach_seed. steps.
      destruct (bool_decide _); cbn [andb negb]; by steps.
  - destruct (bool_decide _); cbn [andb negb]; by steps.
Qed.

Lemma afterRulers_frame currentStage namespace s :
  let s1 := afterRulers currentStage namespace s in
  pieces s1 = pieces s
  ∧ rulers s1 = rulers s
  ∧ Storage.scalars (storage s1) = Storage.scalars (storage s)
  ∧ ∀ key, key ≠ rulerListKey namespace →
      Storage.scoredSet (storage s1) key = Storage.scoredSet (storage s) key.
Proof.
  unfold afterRulers. destruct (_ && _); [apply seeded_frame | done].
Qed.

(** C6. With a stage in the context, [Create] succeeds. A piece which is in
    the piece list keeps its score, a piece which is not is put there with
    score 0, and the scores of the other pieces stay. The entry of the local
    mapping for the namespace and the piece holds the results of this call,
    whatever it held before; the other entries stay. *)
Theorem Create_keeps_score ctx currentStage labels pieceID results s :
  let namespace := labelsToNamespace labels in
  let key := pieceListKey namespace in
  let s' := (Create ctx labels pieceID results s).1 in
  FromContext ctx = Some currentStage →
  (Create ctx labels pieceID results s).2 = Ok tt
  ∧ (∀ sc, Storage.scoredSet (storage s) key !! pieceID = Some sc →
           Storage.scoredSet (storage s') key !! pieceID = Some sc)
  ∧ (Storage.scoredSet (storage s) key !! pieceID = None →
     Storage.scoredSet (storage s') key !! pieceID = Some 0%Z)
  ∧ (∀ member, member ≠ pieceID →
       Storage.scoredSet (storage s') key !! member
       = Storage.scoredSet (storage s) key !! member)
  ∧ pieces s' !! appendToNamespace key pieceID = Some results
  ∧ (∀ k, k ≠ appendToNamespace key pieceID →
          pieces s' !! k = pieces s !! k).
Proof.
  intros namespace key s' H. unfold s'.
  rewrite (Create_run ctx currentStage) by done. fold namespace key.
  destruct (afterRulers_frame currentStage namespace s) as (Hp & _ & _ & Hz).
  specialize (Hz key (not_eq_sym (rulerList_pieceList namespace))).
  set (s1 := afterRulers currentStage namespace s) in *.
  cbn [fst snd]. rewrite Hz.
  assert (pieces (if bool_decide
                       (is_Some (Storage.scoredSet (storage s) key !! pieceID))
                  then s1 else withScore s1 key pieceID 0) = pieces s) as Hp'
    by by destruct (bool_decide _).
  split_and!.
  - done.
  - intros sc Hsc. rewrite bool_decide_eq_true_2 by by rewrite Hsc.
    fields. by rewrite Hz.
  - intros Hsc. rewrite bool_decide_eq_false_2 by by rewrite Hsc; intros [].
    cbn [storage withPieces]. rewrite scoredSet_withScore.
    rewrite decide_True by done. apply lookup_insert_eq.
  - intros member Hm. destruct (bool_decide _); cbn [storage withPieces];
      [by rewrite Hz |].
    rewrite scoredSet_withScore, decide_True by done.
    rewrite lookup_insert_ne by done. by rewrite Hz.
  - fields. by rewrite lookup_insert_eq.
  - intros k Hk. fields. rewrite lookup_insert_ne by done. by rewrite Hp'.
Qed.

End create.

Lemma Create_keeps_score_witness :
  let key := pieceListKey (labelsToNamespace exampleLabels) in
  let s' := (Create trialContext exampleLabels "p1" ["val3"] scoredService).1 in
  (Create trialContext exampleLabels "p1" ["val3"] scoredService).2 = Ok tt
  ∧ Storage.scoredSet (storage s') key !! "p1" = Some 1%Z
  ∧ pieces s' !! appendToNamespace key "p1" = Some ["val3"].
Proof.
  intros key s'.
  destruct (Create_keeps_score trialContext (currentstage.mk true false)
              exampleLabels "p1" ["val3"] scoredService eq_refl)
    as (H1 & H2 & _ & _ & H5 & _).
  split_and!; [exact H1 | | exact H5].
  apply H2. vm_compute. reflexivity.
Defined.

(** ** The local mapping *)

Section pieces.
Context {V : Type}.
Implicit Types s : service V.

Lemma usePiece_pieces namespace labels rulerID s :
  pieces (usePiece namespace labels rulerID s).1 = pieces s.
Proof.
  rewrite usePiece_run. destruct (rulers s !! rulerID) as [f|]; [| done].
  by destruct (f labels (storage s)) as [st [pieceID | e]].
Qed.

Lemma usePiece_results namespace labels rulerID s pieceID results :
  (usePiece namespace labels rulerID s).2 = Ok (pieceID, results) →
  results = default [] (pieces s !! pieceID).
Proof.
  rewrite usePiece_run. destruct (rulers s !! rulerID) as [f|]; [| done].
  destruct (f labels (storage s)) as [st [p | e]]; [| done].
  by intros [= <- <-].
Qed.

(** [Execute] reads the results under the piece alone. *)
Lemma Execute_results ctx labels s pieceID results :
  (Execute ctx labels s).2 = Ok (pieceID, results) →
  results = default [] (pieces s !! pieceID).
Proof.
  destruct (FromContext ctx) as [currentStage|] eqn:H;
    [| by rewrite Execute_absent].
  destruct (currentstage.Trial currentStage) eqn:Ht;
    [| destruct (currentstage.Replay currentStage) eqn:Hr].
  - rewrite (Execute_trial ctx currentStage) by done.
    intros He. by apply usePiece_results in He.
  - rewrite (Execute_replay ctx currentStage) by done.
    destruct (Storage.scalars (storage s) !! _); [| done].
    apply usePiece_results.
  - rewrite (Execute_neither ctx currentStage) by done.
    apply usePiece_results.
Qed.

Lemma Execute_pieces ctx labels s :
  pieces (Execute ctx labels s).1 = pieces s.
Proof.
  destruct (FromContext ctx) as [currentStage|] eqn:H;
    [| by rewrite Execute_absent].
  destruct (currentstage.Trial currentStage) eqn:Ht;
    [| destruct (currentstage.Replay currentStage) eqn:Hr].
  - rewrite (Execute_trial ctx currentStage) by done.
    by rewrite usePiece_pieces.
  - rewrite (Execute_replay ctx currentStage) by done.
    destruct (Storage.scalars (storage s) !! _); [| done].
    by rewrite usePiece_pieces.
  - rewrite (Execute_neither ctx currentStage) by done.
    by rewrite usePiece_pieces.
Qed.

Lemma Create_pieces ctx labels pieceID results s :
  (Create ctx labels pieceID results s).2 = Ok tt →
  pieces (Create ctx labels pieceID results s).1
  = <[appendToNamespace (pieceListKey (labelsToNamespace labels)) pieceID
      := results]> (pieces s).
Proof.
  destruct (FromContext ctx) as [currentStage|] eqn:H.
  - intros _. rewrite (Create_run ctx currentStage) by done.
    destruct (afterRulers_frame currentStage (labelsToNamespace labels) s)
      as (Hp & _).
    cbn [fst withPieces pieces]. by destruct (bool_decide _); rewrite <- Hp.
  - unfold Create. by rewrite H.
Qed.

(** The keys of the local mapping start with the prefix of the storage keys:
    this holds of a new service and every method keeps it. *)
Lemma pieces_keyed_NewService st : pieces_keyed (NewService (V:=V) st).
Proof. intros k [v Hk]. simpl in Hk. by apply lookup_empty_Some in Hk. Qed.

Lemma pieces_keyed_Boot s : pieces_keyed s → pieces_keyed (Boot s).
Proof. unfold Boot. by destruct (bootOnce s). Qed.

Lemma pieces_keyed_Create ctx labels pieceID results s :
  pieces_keyed s → pieces_keyed (Create ctx labels pieceID results s).1.
Proof.
  intros Hs. destruct (FromContext ctx) as [currentStage|] eqn:H.
  - intros k. rewrite Create_pieces
      by by rewrite (Create_run ctx currentStage).
    rewrite lookup_insert. case_decide as Hk; [| apply Hs].
    intros _. subst k. apply HasPrefix_cache_key.
  - unfold Create. by rewrite H.
Qed.

Lemma pieces_keyed_Execute ctx labels s :
  pieces_keyed s → pieces_keyed (Execute ctx labels s).1.
Proof. intros Hs k. rewrite Execute_pieces. apply Hs. Qed.

Lemma pieces_keyed_Delete ctx labels s :
  pieces_keyed s → pieces_keyed (Delete ctx labels s).1.
Proof.
  intros Hs k. rewrite Delete_run. cbn [fst withPieces pieces].
  intros [v Hk]. apply map_lookup_filter_Some in Hk as [Hk _]. by apply Hs.
Qed.

Lemma pieces_keyed_Failure ctx labels s :
  pieces_keyed s → pieces_keyed (Failure ctx labels s).1.
Proof. rewrite Failure_Delete. apply pieces_keyed_Delete. Qed.

Lemma pieces_keyed_Success ctx labels s :
  pieces_keyed s → pieces_keyed (Success ctx labels s).1.
Proof.
  intros Hs k. rewrite Success_run.
  destruct (Storage.scalars (storage s) !! rulerUsedKey _); [| apply Hs].
  destruct (Storage.scalars (storage s) !! pieceUsedKey _); apply Hs.
Qed.

(** C2. [Create] puts the results under the key made of the piece list key
    and the piece, which starts with the prefix of the storage keys;
    [Execute] reads the local mapping under the piece alone. So after a
    [Create] for a namespace, an [Execute] for it which chooses a piece that
    does not start with that prefix finds no entry and returns the empty
    results, the piece of the [Create] included. *)
Theorem Execute_misses_results ctx1 ctx2 labels pieceID results s
    chosen returned :
  let key := pieceListKey (labelsToNamespace labels) in
  let s1 := (Create ctx1 labels pieceID results s).1 in
  pieces_keyed s →
  (Create ctx1 labels pieceID results s).2 = Ok tt →
  (Execute ctx2 labels s1).2 = Ok (chosen, returned) →
  HasPrefix chosen keyPrefix = false →
  pieces s1 !! appendToNamespace key pieceID = Some results
  ∧ HasPrefix (appendToNamespace key pieceID) keyPrefix = true
  ∧ pieces s1 !! chosen = None
  ∧ returned = [].
Proof.
  intros key s1 Hs Hc He Hp.
  assert (pieces s1 !! chosen = None) as Hnone.
  { destruct (pieces s1 !! chosen) as [v|] eqn:E; [| done].
    pose proof (pieces_keyed_Create ctx1 labels pieceID results s Hs chosen)
      as Hk.
    fold s1 in Hk. rewrite E in Hk. rewrite Hk in Hp by done. done. }
  split_and!.
  - unfold s1. rewrite Create_pieces by done. apply lookup_insert_eq.
  - apply HasPrefix_cache_key.
  - done.
  - apply Execute_results in He. by rewrite Hnone in He.
Qed.

End pieces.

Lemma Execute_misses_results_witness :
  let s1 := (Create trialContext exampleLabels "p1" ["val1"] bootedService).1 in
  pieces s1
  !! appendToNamespace (pieceListKey (labelsToNamespace exampleLabels)) "p1"
  = Some ["val1"]
  ∧ (Execute trialContext exampleLabels s1).2 = Ok ("p1", []).
Proof.
  intros s1.
  assert ((Execute trialContext exampleLabels s1).2 = Ok ("p1", [])) as He
    by (vm_compute; reflexivity).
  destruct (Execute_misses_results trialContext trialContext exampleLabels
              "p1" ["val1"] bootedService "p1" [])
    as (H1 & _).
  - apply pieces_keyed_NewService.
  - vm_compute. reflexivity.
  - exact He.
  - vm_compute. reflexivity.
  - by split.
Defined.

(** * Further properties of the package *)

(** ** More facts on byte strings *)

Section more_string_facts.
Implicit Types s t u : string.

Lemma list_ascii_of_string_app s t :
  list_ascii_of_string (s +:+ t)
  = (list_ascii_of_string s ++ list_ascii_of_string t)%list.
Proof.
  induction s as [|a s IH]; [done |].
  rewrite append_cons. simpl. by rewrite IH.
Qed.

Lemma list_ascii_of_string_inj s t :
  list_ascii_of_string s = list_ascii_of_string t → s = t.
Proof.
  intros H. rewrite <- (string_of_list_ascii_of_string s).
  rewrite <- (string_of_list_ascii_of_string t). by rewrite H.
Qed.

(** Two strings which end with suffixes of one length. *)
Lemma append_inj_r s1 s2 t1 t2 :
  String.length t1 = String.length t2 →
  s1 +:+ t1 = s2 +:+ t2 → s1 = s2 ∧ t1 = t2.
Proof.
  intros Hlen H. apply (f_equal list_ascii_of_string) in H.
  rewrite !list_ascii_of_string_app in H.
  apply app_inj_2 in H as [H1 H2].
  - split; by apply list_ascii_of_string_inj.
  - clear H. revert t2 Hlen.
    induction t1 as [|a t1 IH]; intros [|b t2]; simpl; try done.
    intros [=]. f_equal. by apply IH.
Qed.

Lemma no_byte_app c s t :
  no_byte c (s +:+ t) = no_byte c s && no_byte c t.
Proof.
  induction s as [|a s IH]; [done |].
  rewrite append_cons. simpl. by rewrite IH, andb_assoc.
Qed.

(** A string free of the byte [c], followed by nothing or by [c]: the string
    and what follows it are determined by their concatenation. *)
Lemma append_delimited c s t u v :
  no_byte c s = true → no_byte c t = true →
  (u = "" ∨ ∃ u', u = String c u') →
  (v = "" ∨ ∃ v', v = String c v') →
  s +:+ u = t +:+ v → s = t ∧ u = v.
Proof.
  revert t. induction s as [|a s IH]; intros [|b t] Hs Ht Hu Hv H;
    rewrite ?append_cons, ?append_nil in H; simpl in Hs, Ht.
  - done.
  - destruct Hu as [-> | [u' ->]]; [done |]. injection H as <- _.
    by rewrite Ascii.eqb_refl in Ht.
  - destruct Hv as [-> | [v' ->]]; [done |]. injection H as -> _.
    by rewrite Ascii.eqb_refl in Hs.
  - injection H as -> H.
    apply andb_prop in Hs as [_ Hs]. apply andb_prop in Ht as [_ Ht].
    destruct (IH t Hs Ht Hu Hv H) as [-> ->]. done.
Qed.

End more_string_facts.

(** ** The keys of two namespaces *)

Section keys_of_two.

(** A key is the prefix, the namespace and a suffix of eleven bytes. *)
Lemma key_eq_inv (ns1 ns2 suffix1 suffix2 : string) :
  String.length suffix1 = String.length suffix2 →
  namespaceKey ns1 +:+ suffix1 = namespaceKey ns2 +:+ suffix2 →
  ns1 = ns2 ∧ suffix1 = suffix2.
Proof.
  intros Hlen H. unfold namespaceKey in H. rewrite !append_assoc in H.
  apply append_inj_l in H. by apply append_inj_r.
Qed.

(** X1. The four keys of a namespace determine the namespace, and keys of
    two kinds are different, whatever the two namespaces. *)
Theorem keys_injective (ns1 ns2 : string) :
  (pieceListKey ns1 = pieceListKey ns2 ↔ ns1 = ns2)
  ∧ (pieceUsedKey ns1 = pieceUsedKey ns2 ↔ ns1 = ns2)
  ∧ (rulerListKey ns1 = rulerListKey ns2 ↔ ns1 = ns2)
  ∧ (rulerUsedKey ns1 = rulerUsedKey ns2 ↔ ns1 = ns2)
  ∧ pieceListKey ns1 ≠ pieceUsedKey ns2
  ∧ pieceListKey ns1 ≠ rulerListKey ns2
  ∧ pieceListKey ns1 ≠ rulerUsedKey ns2
  ∧ pieceUsedKey ns1 ≠ rulerListKey ns2
  ∧ pieceUsedKey ns1 ≠ rulerUsedKey ns2
  ∧ rulerListKey ns1 ≠ rulerUsedKey ns2.
Proof.
  split_and!;
    try (split; [intros H; by apply key_eq_inv in H as [-> _] | by intros ->]);
    intros H; by apply key_eq_inv in H as [_ [=]].
Qed.

End keys_of_two.

(** ** Namespaces of labels *)

Section namespaces.
Implicit Types (l : list string) (x : string).

(** What follows the first of the joined strings: nothing, or a dash. *)
Lemma concat_cons sep x l :
  String.concat sep (x :: l)
  = x +:+ match l with [] => "" | _ :: _ => sep +:+ String.concat sep l end.
Proof.
  destruct l as [|y l]; simpl; [| done].
  induction x as [|a x IH]; [done |]. rewrite append_cons. by rewrite <- IH.
Qed.

Lemma concat_snoc sep l x :
  l ≠ [] →
  String.concat sep (l ++ [x])%list = String.concat sep l +:+ sep +:+ x.
Proof.
  induction l as [|y l IH]; [done |]. intros _.
  destruct l as [|z l]; [done |].
  change ((y :: z :: l) ++ [x])%list with (y :: ((z :: l) ++ [x]))%list.
  assert (∃ w l', ((z :: l) ++ [x])%list = w :: l') as (w & l' & E)
    by (simpl; eauto).
  rewrite (concat_cons sep y (z :: l)), concat_cons, E. cbv iota.
  rewrite <- E, IH by done. by rewrite !append_assoc.
Qed.

Lemma sortStrings_StronglySorted l : StronglySorted String.le (sortStrings l).
Proof. apply (StronglySorted_merge_sort String.le). Qed.

(** A label which is not below the others is sorted last. *)
Lemma sortStrings_greatest x l :
  Forall (λ y, String.le y x) l →
  sortStrings (x :: l) = (sortStrings l ++ [x])%list.
Proof.
  intros Hle. apply (StronglySorted_unique String.le).
  - apply sortStrings_StronglySorted.
  - apply StronglySorted_app_2.
    + intros x1 x2 H1 H2. apply list_elem_of_singleton in H2 as ->.
      rewrite sortStrings_Permutation in H1.
      by apply (proj1 (Forall_forall _ _) Hle).
    + apply sortStrings_StronglySorted.
    + repeat constructor.
  - rewrite !sortStrings_Permutation. by rewrite Permutation_cons_append.
Qed.

(** X2. The contract of [appendToNamespace] with [labelsToNamespace]: to
    append a label which is not below the labels of a namespace gives the
    namespace of the labels with this label. *)
Theorem appendToNamespace_labelsToNamespace (labels : list string)
    (label : string) :
  labels ≠ [] →
  Forall (λ y, String.le y label) labels →
  appendToNamespace (labelsToNamespace labels) label
  = labelsToNamespace (label :: labels).
Proof.
  intros Hne Hle. unfold labelsToNamespace, appendToNamespace.
  rewrite sortStrings_greatest by done. rewrite concat_snoc; [done |].
  intros Hnil. apply Hne. apply Permutation_nil_r.
  by rewrite <- Hnil, sortStrings_Permutation.
Qed.

(** The joined strings determine the strings, when no dash occurs in them. *)
Lemma concat_dash_inj l1 l2 :
  l1 ≠ [] → l2 ≠ [] →
  Forall (λ y, no_byte "-" y = true) l1 →
  Forall (λ y, no_byte "-" y = true) l2 →
  String.concat "-" l1 = String.concat "-" l2 → l1 = l2.
Proof.
  revert l2. induction l1 as [|x l1 IH]; [done |].
  intros [|y l2]; [done |]. intros _ _ H1 H2.
  apply Forall_cons in H1 as [Hx H1]. apply Forall_cons in H2 as [Hy H2].
  rewrite !concat_cons. intros H.
  apply (append_delimited "-" x y) in H as [-> H]; try done.
  - f_equal. destruct l1 as [|x' l1], l2 as [|y' l2]; try done.
    apply IH; try done. by injection H.
  - destruct l1; [by left | right; by eexists].
  - destruct l2; [by left | right; by eexists].
Qed.

(** X3. Two lists of labels which are not empty and in which no dash occurs
    have one namespace only if they are permutations of one another. *)
Theorem labelsToNamespace_injective (l1 l2 : list string) :
  l1 ≠ [] → l2 ≠ [] →
  Forall (λ y, no_byte "-" y = true) l1 →
  Forall (λ y, no_byte "-" y = true) l2 →
  labelsToNamespace l1 = labelsToNamespace l2 →
  l1 ≡ₚ l2.
Proof.
  intros Hn1 Hn2 H1 H2 H. unfold labelsToNamespace in H.
  apply concat_dash_inj in H.
  - by rewrite <- (sortStrings_Permutation l1), H, sortStrings_Permutation.
  - intros Hnil. apply Hn1, Permutation_nil_r.
    by rewrite <- Hnil, sortStrings_Permutation.
  - intros Hnil. apply Hn2, Permutation_nil_r.
    by rewrite <- Hnil, sortStrings_Permutation.
  - by rewrite sortStrings_Permutation.
  - by rewrite sortStrings_Permutation.
Qed.

(** The namespace of labels without colon has no colon. *)
Lemma labelsToNamespace_no_colon l :
  Forall (λ y, no_byte ":" y = true) l →
  no_byte ":" (labelsToNamespace l) = true.
Proof.
  intros H. unfold labelsToNamespace.
  rewrite <- (sortStrings_Permutation l) in H.
  induction H as [|x l' Hx H IH]; [done |].
  rewrite concat_cons, no_byte_app, Hx. destruct l'; [done |].
  by rewrite no_byte_app, IH.
Qed.

End namespaces.

Lemma appendToNamespace_labelsToNamespace_witness :
  appendToNamespace (labelsToNamespace ["featureX"; "aspect"]) "stageA"
  = labelsToNamespace ["stageA"; "featureX"; "aspect"].
Proof.
  apply appendToNamespace_labelsToNamespace; [done |].
  repeat constructor; by vm_compute.
Defined.

Lemma labelsToNamespace_injective_witness :
  ["stageA"; "featureX"] ≡ₚ ["featureX"; "stageA"].
Proof.
  apply labelsToNamespace_injective; try done.
  - by repeat constructor.
  - by repeat constructor.
Defined.

(** ** The keys of a mapping *)

(** X4. [mappingsToKeys] lists every key of the mapping once: no key twice,
    the keys of the mapping and no others, as many as the mapping has
    entries; for the empty mapping, none. *)
Theorem mappingsToKeys_keys {V} (m : gmap string (list V)) :
  NoDup (mappingsToKeys m)
  ∧ (∀ k, k ∈ mappingsToKeys m ↔ is_Some (m !! k))
  ∧ length (mappingsToKeys m) = size m
  ∧ mappingsToKeys (∅ : gmap string (list V)) = [].
Proof.
  unfold mappingsToKeys. split_and!.
  - apply NoDup_fst_map_to_list.
  - intros k. rewrite list_elem_of_fmap. split.
    + intros ([k' v] & -> & H). apply elem_of_map_to_list in H. by exists v.
    + intros [v H]. exists (k, v). split; [done |].
      by apply elem_of_map_to_list.
  - by rewrite length_fmap, length_map_to_list.
  - by rewrite map_to_list_empty.
Qed.

(** ** What Execute returns and what it writes *)

Lemma members_nil (zs : gmap string Z) : Storage.members zs = [] ↔ zs = ∅.
Proof.
  split; [| intros ->; apply members_empty].
  intros H. apply map_eq. intros k. rewrite lookup_empty.
  destruct (zs !! k) as [sc|] eqn:E; [| done].
  assert (k ∈ Storage.members zs) as Hk by (apply members_elem_of; eauto).
  rewrite H in Hk. by apply not_elem_of_nil in Hk.
Qed.

Section execute_more.
Context {V : Type}.
Implicit Types s : service V.

(** The last block of [Execute], when it succeeds with the rulers of
    [Boot]. *)
Lemma usePiece_Ok_inv namespace labels rulerID s s' pieceID results :
  let pieceList := Storage.scoredSet (storage s)
                     (pieceListKey (labelsToNamespace labels)) in
  rulers s ⊆ bootRulers →
  usePiece namespace labels rulerID s = (s', Ok (pieceID, results)) →
  (rulerID = randomRuler ∨ rulerID = highestRuler)
  ∧ Storage.scalars (storage s') !! pieceUsedKey namespace = Some pieceID
  ∧ is_Some (pieceList !! pieceID)
  ∧ (rulerID = highestRuler →
     ∃ sc, pieceList !! pieceID = Some sc
           ∧ ∀ member sc', pieceList !! member = Some sc' → (sc' ≤ sc)%Z)
  ∧ results = default [] (pieces s !! pieceID).
Proof.
  intros pieceList Hsub. rewrite usePiece_run.
  destruct (rulers s !! rulerID) as [f|] eqn:E; [| done].
  apply (rulers_lookup_boot _ _ _ Hsub) in E as [[-> ->] | [-> ->]].
  - rewrite randomRulerFunc_run.
    destruct (Storage.GetRandomFromScoredSet _ _) as [st [p|]] eqn:Hr;
      [| done].
    intros [= <- <- <-]. fields.
    split_and!; [by left | apply lookup_insert_eq | | done | done].
    by apply GetRandomFromScoredSet_member in Hr.
  - rewrite highestRulerFunc_run. fold pieceList.
    destruct (Storage.ranking pieceList) as [|p l] eqn:Hr; [done |].
    simpl. intros [= <- <- <-]. fields.
    apply ranking_head in Hr as (sc & Hsc & Hmax).
    split_and!; [by right | apply lookup_insert_eq | by eexists | | done].
    intros _. by exists sc.
Qed.

(** The last block of [Execute], when it fails with the rulers of [Boot]:
    nothing is written. *)
Lemma usePiece_Err namespace labels rulerID s e :
  rulers s ⊆ bootRulers →
  (usePiece namespace labels rulerID s).2 = Err e →
  usePiece namespace labels rulerID s = (s, Err notFoundError).
Proof.
  intros Hsub. rewrite usePiece_run.
  destruct (rulers s !! rulerID) as [f|] eqn:E; [| done].
  apply (rulers_lookup_boot _ _ _ Hsub) in E as [[_ ->] | [_ ->]].
  - rewrite randomRulerFunc_run. unfold Storage.GetRandomFromScoredSet.
    destruct (Storage.members _) as [|m ms]; [| done].
    by rewrite withStorage_id.
  - rewrite highestRulerFunc_run.
    destruct (take 1 _) as [|? [|]]; by rewrite ?withStorage_id.
Qed.

(** A successful [Execute] with the rulers of [Boot]. *)
Lemma Execute_Ok_inv ctx labels s pieceID results :
  let namespace := labelsToNamespace labels in
  let pieceList := Storage.scoredSet (storage s) (pieceListKey namespace) in
  let s' := (Execute ctx labels s).1 in
  rulers s ⊆ bootRulers →
  (Execute ctx labels s).2 = Ok (pieceID, results) →
  ∃ rulerID,
    (rulerID = randomRuler ∨ rulerID = highestRuler)
    ∧ Storage.scalars (storage s') !! rulerUsedKey namespace = Some rulerID
    ∧ Storage.scalars (storage s') !! pieceUsedKey namespace = Some pieceID
    ∧ is_Some (pieceList !! pieceID)
    ∧ (rulerID = highestRuler →
       ∃ sc, pieceList !! pieceID = Some sc
             ∧ ∀ member sc', pieceList !! member = Some sc' → (sc' ≤ sc)%Z)
    ∧ results = default [] (pieces s !! pieceID).
Proof.
  intros namespace pieceList s' Hsub Hex.
  assert (Execute ctx labels s = (s', Ok (pieceID, results))) as Hex'.
  { unfold s'. rewrite <- Hex. apply surjective_pairing. }
  clear Hex. subst s'.
  set (s' := (Execute ctx labels s).1) in *.
  destruct (FromContext ctx) as [currentStage|] eqn:H;
    [| by rewrite Execute_absent in Hex'].
  destruct (currentstage.Trial currentStage) eqn:Ht;
    [| destruct (currentstage.Replay currentStage) eqn:Hr].
  - rewrite (Execute_trial ctx currentStage) in Hex' by done.
    fold namespace in Hex'.
    set (rulerID := resolvedRuler s namespace) in *.
    set (written := withScalar s (rulerUsedKey namespace) rulerID) in *.
    destruct (usePiece_frame namespace (sortStrings labels) rulerID written)
      as (_ & _ & _ & Hsc); [done |].
    rewrite Hex' in Hsc. cbn [fst] in Hsc.
    apply usePiece_Ok_inv in Hex' as (Hrid & Hpu & Hmem & Hmax & Hres);
      [| done].
    rewrite labelsToNamespace_sorted in Hmem, Hmax.
    exists rulerID. split_and!; try done.
    rewrite Hsc by apply rulerUsed_pieceUsed. apply lookup_insert_eq.
  - rewrite (Execute_replay ctx currentStage) in Hex' by done.
    fold namespace in Hex'.
    destruct (Storage.scalars (storage s) !! rulerUsedKey namespace)
      as [rulerID|] eqn:Hru; [| done].
    destruct (usePiece_frame namespace (sortStrings labels) rulerID s)
      as (_ & _ & _ & Hsc); [done |].
    rewrite Hex' in Hsc. cbn [fst] in Hsc.
    apply usePiece_Ok_inv in Hex' as (Hrid & Hpu & Hmem & Hmax & Hres);
      [| done].
    rewrite labelsToNamespace_sorted in Hmem, Hmax.
    exists rulerID. split_and!; try done.
    by rewrite Hsc by apply rulerUsed_pieceUsed.
  - rewrite (Execute_neither ctx currentStage) in Hex' by done.
    rewrite usePiece_run, rulers_empty_name in Hex' by done. done.
Qed.

(** X5. With the rulers of [Boot], a piece which [Execute] returns is a
    member of the piece list of the namespace, and when [Execute] returns
    the used piece record holds this piece and the used ruler record holds
    a ruler of [Boot]. *)
Theorem Execute_returns_member ctx labels s pieceID results :
  let namespace := labelsToNamespace labels in
  let s' := (Execute ctx labels s).1 in
  rulers s ⊆ bootRulers →
  (Execute ctx labels s).2 = Ok (pieceID, results) →
  is_Some (Storage.scoredSet (storage s) (pieceListKey namespace) !! pieceID)
  ∧ Storage.scalars (storage s') !! pieceUsedKey namespace = Some pieceID
  ∧ (Storage.scalars (storage s') !! rulerUsedKey namespace
     = Some randomRuler
     ∨ Storage.scalars (storage s') !! rulerUsedKey namespace
       = Some highestRuler).
Proof.
  intros namespace s' Hsub Hex.
  destruct (Execute_Ok_inv ctx labels s pieceID results Hsub Hex)
    as (rulerID & Hrid & Hru & Hpu & Hmem & _).
  split_and!; [done | done |].
  destruct Hrid as [-> | ->]; [by left | by right].
Qed.

(** X6. With the highest ruler recorded, the piece which [Execute] returns
    has the greatest score of the piece list of the namespace. *)
Theorem Execute_highest_greatest ctx labels s pieceID results :
  let namespace := labelsToNamespace labels in
  let pieceList := Storage.scoredSet (storage s) (pieceListKey namespace) in
  let s' := (Execute ctx labels s).1 in
  rulers s ⊆ bootRulers →
  (Execute ctx labels s).2 = Ok (pieceID, results) →
  Storage.scalars (storage s') !! rulerUsedKey namespace = Some highestRuler →
  ∃ sc, pieceList !! pieceID = Some sc
        ∧ ∀ member sc', pieceList !! member = Some sc' → (sc' ≤ sc)%Z.
Proof.
  intros namespace pieceList s' Hsub Hex Hused.
  destruct (Execute_Ok_inv ctx labels s pieceID results Hsub Hex)
    as (rulerID & _ & Hru & _ & _ & Hmax & _).
  apply Hmax. fold namespace s' in Hru. congruence.
Qed.

End execute_more.

Section execute_frame.
Context {V : Type}.
Implicit Types s : service V.

(** [Execute] fails at once, or it is its last block on a state which
    differs from the state of the call in the used ruler record at most. *)
Lemma Execute_cases ctx labels s :
  let namespace := labelsToNamespace labels in
  (∃ e, Execute ctx labels s = (s, Err e))
  ∨ (∃ rulerID s0,
       Execute ctx labels s
       = usePiece namespace (sortStrings labels) rulerID s0
       ∧ rulers s0 = rulers s
       ∧ pieces s0 = pieces s
       ∧ Storage.scoredSets (storage s0) = Storage.scoredSets (storage s)
       ∧ ∀ key, key ≠ rulerUsedKey namespace →
           Storage.scalars (storage s0) !! key
           = Storage.scalars (storage s) !! key).
Proof.
  intros namespace.
  destruct (FromContext ctx) as [currentStage|] eqn:H;
    [| left; eexists; by apply Execute_absent].
  destruct (currentstage.Trial currentStage) eqn:Ht;
    [| destruct (currentstage.Replay currentStage) eqn:Hr].
  - right. eexists _, _. split; [by apply (Execute_trial ctx currentStage) |].
    fields. split_and!; try done. intros key Hk. by rewrite lookup_insert_ne.
  - rewrite (Execute_replay ctx currentStage) by done. fold namespace.
    destruct (Storage.scalars (storage s) !! rulerUsedKey namespace)
      as [rulerID|]; [| left; by eexists].
    right. by eexists _, _.
  - right. eexists _, _. by split; [apply (Execute_neither ctx currentStage) |].
Qed.

(** X7. With the rulers of [Boot], [Execute] changes no scored set, no entry
    of the local mapping and no ruler; of the scalar records it writes at
    most the used ruler record and the used piece record of the namespace. *)
Theorem Execute_frame ctx labels s :
  let namespace := labelsToNamespace labels in
  let s' := (Execute ctx labels s).1 in
  rulers s ⊆ bootRulers →
  Storage.scoredSets (storage s') = Storage.scoredSets (storage s)
  ∧ pieces s' = pieces s
  ∧ rulers s' = rulers s
  ∧ ∀ key, key ≠ rulerUsedKey namespace → key ≠ pieceUsedKey namespace →
      Storage.scalars (storage s') !! key = Storage.scalars (storage s) !! key.
Proof.
  intros namespace s' Hsub. unfold s'.
  destruct (Execute_cases ctx labels s)
    as [[e ->] | (rulerID & s0 & -> & Hr0 & Hp0 & Hz0 & Hsc0)]; [done |].
  fold namespace in Hsc0 |- *.
  destruct (usePiece_frame namespace (sortStrings labels) rulerID s0)
    as (Hz & Hp & Hr & Hsc); [by rewrite Hr0 |].
  split_and!; [congruence | congruence | congruence |].
  intros key H1 H2. by rewrite Hsc, Hsc0.
Qed.

(** X8. With the rulers of [Boot], a failed [Execute] has written nothing,
    but in a trial the used ruler record: the ruler it has resolved stays
    recorded. The used piece record is written by a successful [Execute]
    only. *)
Theorem Execute_failure ctx labels s e :
  let namespace := labelsToNamespace labels in
  rulers s ⊆ bootRulers →
  (Execute ctx labels s).2 = Err e →
  (Execute ctx labels s).1
  = match FromContext ctx with
    | Some currentStage =>
      if currentstage.Trial currentStage
      then withScalar s (rulerUsedKey namespace) (resolvedRuler s namespace)
      else s
    | None => s
    end.
Proof.
  intros namespace Hsub.
  destruct (FromContext ctx) as [currentStage|] eqn:H;
    [| by rewrite Execute_absent].
  destruct (currentstage.Trial currentStage) eqn:Ht;
    [| destruct (currentstage.Replay currentStage) eqn:Hr].
  - rewrite (Execute_trial ctx currentStage) by done. fold namespace.
    intros He. apply usePiece_Err in He; [| done]. by rewrite He.
  - rewrite (Execute_replay ctx currentStage) by done. fold namespace.
    destruct (Storage.scalars (storage s) !! rulerUsedKey namespace)
      as [rulerID|]; [| done].
    intros He. apply usePiece_Err in He; [| done]. by rewrite He.
  - rewrite (Execute_neither ctx currentStage) by done.
    intros He. apply usePiece_Err in He; [| done]. by rewrite He.
Qed.

(** After [Boot], a trial of [Execute] succeeds when the piece list of the
    namespace has a member and the ruler list holds no other names than
    those of the two rulers. *)
Lemma Execute_trial_Ok ctx currentStage labels s :
  let namespace := labelsToNamespace labels in
  let rulerList := Storage.scoredSet (storage s) (rulerListKey namespace) in
  let pieceList := Storage.scoredSet (storage s) (pieceListKey namespace) in
  FromContext ctx = Some currentStage →
  currentstage.Trial currentStage = true →
  rulers s = bootRulers →
  (∀ name, is_Some (rulerList !! name) →
           name = randomRuler ∨ name = highestRuler) →
  pieceList ≠ ∅ →
  ∃ pieceID results, (Execute ctx labels s).2 = Ok (pieceID, results).
Proof.
  intros namespace rulerList pieceList H Ht Hboot Hnames Hne.
  rewrite (Execute_trial ctx currentStage) by done. fold namespace.
  rewrite usePiece_run. fields. rewrite Hboot.
  assert (resolvedRuler s namespace = randomRuler
          ∨ resolvedRuler s namespace = highestRuler) as [-> | ->].
  { destruct (resolvedRuler_highest s namespace) as [[_ ?] | [sc [Hsc _]]];
      [by left |].
    apply Hnames. by eexists. }
  - change (bootRulers !! randomRuler) with (Some randomRulerFunc).
    cbv beta iota. rewrite randomRulerFunc_run, labelsToNamespace_sorted.
    unfold Storage.GetRandomFromScoredSet. fields.
    fold namespace. change (Storage.scoredSet _ (pieceListKey namespace))
      with pieceList.
    destruct (Storage.members pieceList) as [|m ms] eqn:Hm.
    { by apply members_nil in Hm. }
    by eexists _, _.
  - change (bootRulers !! highestRuler) with (Some highestRulerFunc).
    cbv beta iota. rewrite highestRulerFunc_run, labelsToNamespace_sorted. fields.
    fold namespace. change (Storage.scoredSet _ (pieceListKey namespace))
      with pieceList.
    destruct (Storage.ranking pieceList) as [|p l] eqn:Hr.
    { by apply ranking_nil in Hr. }
    simpl. by eexists _, _.
Qed.

(** X9. Before [Boot] no ruler is registered: with a stage in the context,
    [Execute] fails with the not found error, whatever the storage holds. *)
Theorem Execute_before_Boot ctx currentStage labels s :
  FromContext ctx = Some currentStage →
  rulers s = ∅ →
  (Execute ctx labels s).2 = Err notFoundError.
Proof.
  intros H Hnone.
  destruct (currentstage.Trial currentStage) eqn:Ht;
    [| destruct (currentstage.Replay currentStage) eqn:Hr].
  - rewrite (Execute_trial ctx currentStage) by done.
    rewrite usePiece_run. fields. by rewrite Hnone, lookup_empty.
  - rewrite (Execute_replay ctx currentStage) by done.
    destruct (Storage.scalars (storage s) !! _); [| done].
    rewrite usePiece_run. by rewrite Hnone, lookup_empty.
  - rewrite (Execute_neither ctx currentStage) by done.
    rewrite usePiece_run. by rewrite Hnone, lookup_empty.
Qed.

End execute_frame.

(** ** Success after Execute *)

Section success_more.
Context {V : Type}.
Implicit Types s : service V.

(** X10. With the rulers of [Boot], [Success] succeeds after an [Execute]
    which has returned a piece, and it raises the score of this piece in the
    piece list by one. *)
Theorem Execute_then_Success ctx1 ctx2 labels s pieceID results :
  let namespace := labelsToNamespace labels in
  let s1 := (Execute ctx1 labels s).1 in
  let s2 := (Success ctx2 labels s1).1 in
  rulers s ⊆ bootRulers →
  (Execute ctx1 labels s).2 = Ok (pieceID, results) →
  (Success ctx2 labels s1).2 = Ok tt
  ∧ Storage.scoredSet (storage s2) (pieceListKey namespace) !! pieceID
    = Some (score s (pieceListKey namespace) pieceID + 1)%Z.
Proof.
  intros namespace s1 s2 Hsub Hex.
  destruct (Execute_Ok_inv ctx1 labels s pieceID results Hsub Hex)
    as (rulerID & _ & Hru & Hpu & _).
  assert (Storage.scoredSets (storage s1) = Storage.scoredSets (storage s))
    as Hz.
  { unfold s1.
    destruct (Execute_cases ctx1 labels s)
      as [[e ->] | (rid & s0 & -> & Hr0 & _ & Hz0 & _)]; [done |].
    destruct (usePiece_frame (labelsToNamespace labels) (sortStrings labels)
                rid s0) as (Hz & _); [by rewrite Hr0 |].
    congruence. }
  fold namespace s1 in Hru, Hpu. unfold s2.
  rewrite Success_run. fold namespace. rewrite Hru, Hpu. cbv zeta.
  cbn [fst snd]. split; [done |].
  rewrite scoredSet_withScore, decide_True by done.
  rewrite lookup_insert_eq. unfold score, Storage.scoredSet. by rewrite Hz.
Qed.

(** X11. [Success] does not undo what it has done when it fails: with the
    used ruler record and without the used piece record, it fails with the
    error of the read after it has raised the score of the recorded ruler
    by one; the piece list and the scalar records are as before. *)
Theorem Success_no_rollback ctx labels s rulerID :
  let namespace := labelsToNamespace labels in
  let s' := (Success ctx labels s).1 in
  Storage.scalars (storage s) !! rulerUsedKey namespace = Some rulerID →
  Storage.scalars (storage s) !! pieceUsedKey namespace = None →
  (Success ctx labels s).2 = Err notFoundError
  ∧ Storage.scoredSet (storage s') (rulerListKey namespace) !! rulerID
    = Some (score s (rulerListKey namespace) rulerID + 1)%Z
  ∧ Storage.scoredSets (storage s') !! pieceListKey namespace
    = Storage.scoredSets (storage s) !! pieceListKey namespace
  ∧ Storage.scalars (storage s') = Storage.scalars (storage s).
Proof.
  intros namespace s' Hru Hpu. unfold s'. rewrite Success_run.
  fold namespace. rewrite Hru, Hpu. cbv zeta. cbn [fst snd].
  split_and!; [done | | | done].
  - rewrite scoredSet_withScore, decide_True by done. apply lookup_insert_eq.
  - fields. apply lookup_insert_ne, rulerList_pieceList.
Qed.

End success_more.

(** ** More on Create *)

Section create_more.
Context {V : Type}.
Implicit Types s : service V.

Lemma seeded_lookup s key names name :
  Storage.scoredSet (storage (seeded s key names)) key !! name
  = if decide (name ∈ names) then Some 0%Z
    else Storage.scoredSet (storage s) key !! name.
Proof.
  revert s. induction names as [|n names IH]; intros s.
  - by rewrite decide_False by apply not_elem_of_nil.
  - simpl seeded. rewrite IH.
    destruct (decide (name ∈ names)) as [Hin | Hnin].
    + by rewrite decide_True by by right.
    + rewrite scoredSet_withScore, decide_True by done.
      destruct (decide (n = name)) as [-> | Hne].
      * rewrite lookup_insert_eq. by rewrite decide_True by by left.
      * rewrite lookup_insert_ne by done.
        rewrite decide_False; [done |].
        intros [-> | ?]%elem_of_cons; done.
Qed.

Lemma seeded_scoredSets s key names key' :
  key' ≠ key →
  Storage.scoredSets (storage (seeded s key names)) !! key'
  = Storage.scoredSets (storage s) !! key'.
Proof.
  intros Hk. revert s. induction names as [|n names IH]; intros s; [done |].
  simpl seeded. rewrite IH. fields. by rewrite lookup_insert_ne.
Qed.

Lemma seeded_exists s key names :
  names ≠ [] →
  is_Some (Storage.scoredSets (storage (seeded s key names)) !! key).
Proof.
  revert s. induction names as [|n names IH]; intros s; [done |]. intros _.
  simpl seeded. destruct names as [|n' names]; [| by apply IH].
  simpl seeded. fields. rewrite lookup_insert_eq. by eexists.
Qed.

Lemma afterRulers_scoredSets currentStage namespace s key :
  key ≠ rulerListKey namespace →
  Storage.scoredSets (storage (afterRulers currentStage namespace s)) !! key
  = Storage.scoredSets (storage s) !! key.
Proof.
  intros Hk. unfold afterRulers.
  destruct (_ && _); [by apply seeded_scoredSets | done].
Qed.


(** X13. In a trial, when the storage has nothing under the ruler list key
    of the namespace, [Create] puts every registered ruler in the ruler
    list with score 0, and nothing else. *)
Theorem Create_seeds_rulers ctx currentStage labels pieceID results s :
  let namespace := labelsToNamespace labels in
  let s' := (Create ctx labels pieceID results s).1 in
  FromContext ctx = Some currentStage →
  currentstage.Trial currentStage = true →
  Storage.scalars (storage s) !! rulerListKey namespace = None →
  Storage.scoredSets (storage s) !! rulerListKey namespace = None →
  ∀ name,
    Storage.scoredSet (storage s') (rulerListKey namespace) !! name
    = if decide (is_Some (rulers s !! name)) then Some 0%Z else None.
Proof.
  intros namespace s' H Ht Hsc Hz name. unfold s'.
  rewrite (Create_run ctx currentStage) by done. fold namespace.
  cbn [fst storage withPieces].
  assert (afterRulers currentStage namespace s
          = seeded s (rulerListKey namespace) (map_to_list (rulers s)).*1)
    as ->.
  { unfold afterRulers. rewrite Ht, Hsc, Hz.
    rewrite bool_decide_eq_false_2; [done |]. by intros [[? [=]] | [? [=]]]. }
  set (s1 := seeded s _ _).
  assert (Storage.scoredSet (storage s1) (rulerListKey namespace) !! name
          = if decide (is_Some (rulers s !! name)) then Some 0%Z else None)
    as Hs1.
  { unfold s1. rewrite seeded_lookup.
    assert (Storage.scoredSet (storage s) (rulerListKey namespace) !! name
            = None) as ->.
    { unfold Storage.scoredSet. by rewrite Hz. }
    destruct (decide (name ∈ (map_to_list (rulers s)).*1)) as [Hin | Hnin].
    - rewrite decide_True; [done |].
      apply list_elem_of_fmap in Hin as ([name' f] & -> & Hin).
      apply elem_of_map_to_list in Hin. by eexists.
    - rewrite decide_False; [done |]. intros [f Hf]. apply Hnin.
      apply list_elem_of_fmap. exists (name, f). split; [done |].
      by apply elem_of_map_to_list. }
  destruct (bool_decide _); [done |].
  rewrite scoredSet_withScore.
  by rewrite decide_False by apply not_eq_sym, rulerList_pieceList.
Qed.

(** X14. [Create] keeps a ruler list which is there: when the call is no
    trial, or when the storage has a record under the ruler list key, the
    ruler list is as before. *)
Theorem Create_keeps_rulers ctx currentStage labels pieceID results s :
  let namespace := labelsToNamespace labels in
  let s' := (Create ctx labels pieceID results s).1 in
  FromContext ctx = Some currentStage →
  currentstage.Trial currentStage = false
  ∨ is_Some (Storage.scalars (storage s) !! rulerListKey namespace)
  ∨ is_Some (Storage.scoredSets (storage s) !! rulerListKey namespace) →
  Storage.scoredSets (storage s') !! rulerListKey namespace
  = Storage.scoredSets (storage s) !! rulerListKey namespace.
Proof.
  intros namespace s' H Hkeep. unfold s'.
  rewrite (Create_run ctx currentStage) by done. fold namespace.
  cbn [fst storage withPieces].
  assert (afterRulers currentStage namespace s = s) as ->.
  { unfold afterRulers. destruct Hkeep as [-> | Hex]; [done |].
    rewrite bool_decide_eq_true_2 by done. by rewrite andb_false_r. }
  destruct (bool_decide _); [done |]. fields.
  apply lookup_insert_ne, not_eq_sym, rulerList_pieceList.
Qed.

(** X15. Of two calls of [Create] for one piece the last one wins, and the
    first one leaves no other trace: the two calls give the state of the
    last call alone. In particular a call repeated changes nothing. *)
Theorem Create_last_wins ctx currentStage labels pieceID results1 results2 s :
  FromContext ctx = Some currentStage →
  Create ctx labels pieceID results2
    (Create ctx labels pieceID results1 s).1
  = Create ctx labels pieceID results2 s.
Proof.
  intros H. rewrite !(Create_run ctx currentStage) by done. cbv zeta.
  set (namespace := labelsToNamespace labels).
  set (key := pieceListKey namespace).
  set (s1 := afterRulers currentStage namespace s).
  set (s2 := if bool_decide
                  (is_Some (Storage.scoredSet (storage s1) key !! pieceID))
             then s1 else withScore s1 key pieceID 0).
  cbn [fst].
  set (s3 := withPieces s2
               (<[appendToNamespace key pieceID := results1]> (pieces s2))).
  assert (is_Some (Storage.scoredSet (storage s2) key !! pieceID)) as Hmem.
  { unfold s2. case_bool_decide as Hm; [done |].
    rewrite scoredSet_withScore, decide_True by done.
    rewrite lookup_insert_eq. by eexists. }
  assert (Storage.scalars (storage s2) = Storage.scalars (storage s)) as Hsc.
  { destruct (afterRulers_frame currentStage namespace s) as (_ & _ & Hsc & _).
    unfold s2. by destruct (bool_decide _). }
  assert (rulers s2 = rulers s) as Hr.
  { destruct (afterRulers_frame currentStage namespace s) as (_ & Hr & _).
    unfold s2. by destruct (bool_decide _). }
  assert (Storage.scoredSets (storage s2) !! rulerListKey namespace
          = Storage.scoredSets (storage s1) !! rulerListKey namespace) as Hz.
  { unfold s2. destruct (bool_decide _); [done |]. fields.
    apply lookup_insert_ne, not_eq_sym, rulerList_pieceList. }
  assert (afterRulers currentStage namespace s3 = s3) as ->.
  { unfold afterRulers. destruct (currentstage.Trial currentStage) eqn:Ht;
      [| done].
    cbn [andb storage rulers withPieces s3]. rewrite Hsc, Hr, Hz.
    case_bool_decide as Hex3; [done |]. cbn [negb].
    assert (afterRulers currentStage namespace s
            = seeded s (rulerListKey namespace) (map_to_list (rulers s)).*1)
      as Hs1.
    { unfold afterRulers. rewrite Ht. cbn [andb].
      case_bool_decide as Hex; [| done].
      exfalso. apply Hex3. destruct Hex as [? | Hex]; [by left | right].
      unfold s1, afterRulers. rewrite Ht. cbn [andb].
      by rewrite bool_decide_eq_true_2 by by right. }
    destruct ((map_to_list (rulers s)).*1) as [|n names] eqn:Hn; [done |].
    exfalso. apply Hex3. right. unfold s1. rewrite Hs1.
    by apply seeded_exists. }
  cbn [storage pieces withPieces s3].
  rewrite bool_decide_eq_true_2 by done.
  unfold s3, withPieces. cbn [storage bootOnce pieces rulers].
  by rewrite insert_insert_eq.
Qed.

End create_more.

(** ** More on Delete *)

Section delete_more.
Context {V : Type}.
Implicit Types s : service V.

(** X16. With the rulers of [Boot], an [Execute] which follows a [Delete]
    for the labels fails with the not found error, whatever the stage. *)
Theorem Delete_then_Execute ctx1 ctx2 currentStage labels s :
  FromContext ctx2 = Some currentStage →
  rulers s ⊆ bootRulers →
  (Execute ctx2 labels (Delete ctx1 labels s).1).2 = Err notFoundError.
Proof.
  intros H Hsub. rewrite Delete_run. cbn [fst].
  set (namespace := labelsToNamespace labels).
  set (s' := withPieces _ _).
  assert (rulers s' ⊆ bootRulers) as Hsub' by done.
  assert (Storage.scoredSets (storage s')
          !! pieceListKey (labelsToNamespace (sortStrings labels)) = None)
    as Hpl.
  { rewrite labelsToNamespace_sorted. unfold s'. fields.
    apply lookup_delete_eq. }
  destruct (currentstage.Trial currentStage) eqn:Ht;
    [| destruct (currentstage.Replay currentStage) eqn:Hr].
  - rewrite (Execute_trial ctx2 currentStage) by done.
    by apply usePiece_no_pieces.
  - rewrite (Execute_replay ctx2 currentStage) by done.
    destruct (Storage.scalars (storage s') !! _); [| done].
    by apply usePiece_no_pieces.
  - rewrite (Execute_neither ctx2 currentStage) by done.
    by apply usePiece_no_pieces.
Qed.

Lemma delete_delete_idemp `{Countable K} {A} (m : gmap K A) i j :
  delete j (delete i (delete j (delete i m))) = delete j (delete i m).
Proof.
  apply map_eq. intros k. rewrite !lookup_delete.
  by repeat case_decide.
Qed.

(** X17. [Delete] can be repeated: a second [Delete] for the labels
    succeeds and changes nothing. *)
Theorem Delete_idempotent ctx1 ctx2 labels s :
  Delete ctx2 labels (Delete ctx1 labels s).1 = Delete ctx1 labels s.
Proof.
  rewrite !Delete_run. cbv zeta. cbn [fst].
  set (key := pieceListKey (labelsToNamespace labels)).
  unfold withPieces, withoutKey, withStorage.
  cbn [storage bootOnce pieces rulers Storage.scalars Storage.scoredSets
       Storage.entropy].
  rewrite !delete_delete_idemp.
  rewrite (map_filter_id _ (filter _ (pieces s))); [done |].
  intros k v Hk. by apply map_lookup_filter_Some in Hk as [_ Hk].
Qed.

(** X18. [Delete] for labels without colon keeps the entries of the local
    mapping which [Create] has made for labels without colon of another
    namespace. *)
Theorem Delete_keeps_other_pieces ctx labels1 labels2 pieceID s :
  let key2 := appendToNamespace (pieceListKey (labelsToNamespace labels2))
                pieceID in
  Forall (λ y, no_byte ":" y = true) labels1 →
  Forall (λ y, no_byte ":" y = true) labels2 →
  labelsToNamespace labels1 ≠ labelsToNamespace labels2 →
  pieces (Delete ctx labels1 s).1 !! key2 = pieces s !! key2.
Proof.
  intros key2 H1 H2 Hne. rewrite Delete_run. cbn [fst pieces withPieces].
  assert (HasPrefix key2 (pieceListKey (labelsToNamespace labels1)) = false)
    as Hp.
  { destruct (HasPrefix _ _) eqn:E; [| done]. exfalso. apply Hne.
    apply HasPrefix_pieceListKey_inv in E; [done | |];
      by apply labelsToNamespace_no_colon. }
  destruct (pieces s !! key2) as [v|] eqn:E.
  - by apply map_lookup_filter_Some.
  - apply map_lookup_filter_None. by left.
Qed.

(** X19. The methods called for the labels of one namespace leave the
    records of every other namespace in the storage as they are: its used
    ruler record, its used piece record, its ruler list and its piece
    list. *)
Theorem namespace_isolation ctx labels1 labels2 pieceID results s :
  let ns2 := labelsToNamespace labels2 in
  labelsToNamespace labels1 ≠ ns2 →
  rulers s ⊆ bootRulers →
  namespaceRecords (Create ctx labels1 pieceID results s).1 ns2
  = namespaceRecords s ns2
  ∧ namespaceRecords (Execute ctx labels1 s).1 ns2 = namespaceRecords s ns2
  ∧ namespaceRecords (Success ctx labels1 s).1 ns2 = namespaceRecords s ns2
  ∧ namespaceRecords (Delete ctx labels1 s).1 ns2 = namespaceRecords s ns2
  ∧ namespaceRecords (Failure ctx labels1 s).1 ns2 = namespaceRecords s ns2.
Proof.
  intros ns2 Hne Hsub. set (ns1 := labelsToNamespace labels1) in *.
  assert (∀ suffix1 suffix2,
            String.length suffix1 = String.length suffix2 →
            namespaceKey ns2 +:+ suffix2 ≠ namespaceKey ns1 +:+ suffix1)
    as Hkey.
  { intros suffix1 suffix2 Hlen Heq.
    apply key_eq_inv in Heq as [Heq _]; [by apply Hne | done]. }
  assert (namespaceRecords (Delete ctx labels1 s).1 ns2
          = namespaceRecords s ns2) as Hdel.
  { rewrite Delete_run. unfold namespaceRecords. fields. fold ns1.
    by rewrite !lookup_delete_ne by (apply not_eq_sym, Hkey; done). }
  split_and!.
  - destruct (FromContext ctx) as [currentStage|] eqn:H;
      [| unfold Create; by rewrite H].
    rewrite (Create_run ctx currentStage) by done. fold ns1.
    destruct (afterRulers_frame currentStage ns1 s) as (_ & _ & Hsc & _).
    unfold namespaceRecords. cbn [fst storage withPieces].
    set (s1 := afterRulers currentStage ns1 s) in *.
    assert (∀ key, key ≠ rulerListKey ns1 → key ≠ pieceListKey ns1 →
              Storage.scoredSets
                (storage (if bool_decide
                               (is_Some (Storage.scoredSet (storage s1)
                                           (pieceListKey ns1) !! pieceID))
                          then s1 else withScore s1 (pieceListKey ns1)
                                         pieceID 0)) !! key
              = Storage.scoredSets (storage s) !! key) as Hz.
    { intros key Hk1 Hk2. destruct (bool_decide _); fields;
        rewrite ?lookup_insert_ne by done; by apply afterRulers_scoredSets. }
    rewrite !Hz by (apply Hkey; done).
    by destruct (bool_decide _); fields; rewrite Hsc.
  - destruct (Execute_cases ctx labels1 s)
      as [[e ->] | (rulerID & s0 & -> & Hr0 & _ & Hz0 & Hsc0)]; [done |].
    fold ns1 in Hsc0 |- *.
    destruct (usePiece_frame ns1 (sortStrings labels1) rulerID s0)
      as (Hz & _ & _ & Hsc); [by rewrite Hr0 |].
    unfold namespaceRecords. rewrite Hz, Hz0.
    by rewrite !Hsc, !Hsc0 by (apply Hkey; done).
  - rewrite Success_run. fold ns1. unfold namespaceRecords.
    destruct (Storage.scalars (storage s) !! rulerUsedKey ns1); [| done].
    destruct (Storage.scalars (storage s) !! pieceUsedKey ns1); cbv zeta;
      fields; by rewrite !lookup_insert_ne by (apply not_eq_sym, Hkey; done).
  - done.
  - by rewrite Failure_Delete.
Qed.

End delete_more.

(** ** The first calls *)

Section first_calls.
Context {V : Type}.
Implicit Types s : service V.

(** X20. After [Boot], when the ruler list of the namespace holds no other
    names than those of the two rulers, a [Create] in a trial succeeds and
    the trial of [Execute] which follows it succeeds and returns a piece. *)
Theorem Create_then_Execute ctx1 ctx2 stage1 stage2 labels pieceID results s :
  let namespace := labelsToNamespace labels in
  let rulerList := Storage.scoredSet (storage s) (rulerListKey namespace) in
  let s1 := (Create ctx1 labels pieceID results s).1 in
  FromContext ctx1 = Some stage1 → currentstage.Trial stage1 = true →
  FromContext ctx2 = Some stage2 → currentstage.Trial stage2 = true →
  rulers s = bootRulers →
  (∀ name, is_Some (rulerList !! name) →
           name = randomRuler ∨ name = highestRuler) →
  (Create ctx1 labels pieceID results s).2 = Ok tt
  ∧ ∃ chosen returned, (Execute ctx2 labels s1).2 = Ok (chosen, returned).
Proof.
  intros namespace rulerList s1 H1 Ht1 H2 Ht2 Hboot Hnames. unfold s1.
  rewrite (Create_run ctx1 stage1) by done. fold namespace.
  split; [done |]. cbn [fst].
  destruct (afterRulers_frame stage1 namespace s) as (_ & Hr & _ & Hz).
  set (s0 := afterRulers stage1 namespace s) in *.
  set (s2 := if bool_decide _ then s0 else _).
  assert (rulers s2 = bootRulers) as Hr2.
  { unfold s2. destruct (bool_decide _); by rewrite <- Hboot, <- Hr. }
  assert (Storage.scoredSet (storage s2) (rulerListKey namespace)
          = Storage.scoredSet (storage s0) (rulerListKey namespace)) as Hrl.
  { unfold s2. destruct (bool_decide _); [done |].
    rewrite scoredSet_withScore.
    by rewrite decide_False by apply not_eq_sym, rulerList_pieceList. }
  apply (Execute_trial_Ok ctx2 stage2); try done.
  - cbn [storage withPieces]. fold namespace. rewrite Hrl. intros name Hname.
    unfold s0, afterRulers in Hname. destruct (_ && _); [| by apply Hnames].
    rewrite seeded_lookup in Hname.
    destruct (decide (name ∈ (map_to_list (rulers s)).*1)) as [Hin |];
      [| by apply Hnames].
    apply list_elem_of_fmap in Hin as ([name' f] & -> & Hin).
    apply elem_of_map_to_list in Hin. rewrite Hboot in Hin.
    apply bootRulers_lookup in Hin as [[-> _] | [-> _]]; [by left | by right].
  - cbn [storage withPieces]. intros Hempty.
    assert (is_Some (Storage.scoredSet (storage s2) (pieceListKey namespace)
                     !! pieceID)) as [sc Hsc].
    { unfold s2. case_bool_decide as Hm; [done |].
      rewrite scoredSet_withScore, decide_True by done.
      rewrite lookup_insert_eq. by eexists. }
    fold namespace in Hempty. rewrite Hempty in Hsc.
    by rewrite lookup_empty in Hsc.
Qed.

(** X21. [Boot] registers the two rulers once: on a new service the
    registered names are random and highest, a second call of [Boot]
    changes nothing, and [Boot] touches neither the storage nor the local
    mapping. *)
Theorem Boot_once s :
  Boot (Boot s) = Boot s
  ∧ bootOnce (Boot s) = true
  ∧ storage (Boot s) = storage s
  ∧ pieces (Boot s) = pieces s
  ∧ (∀ name, name ≠ randomRuler → name ≠ highestRuler →
              rulers (Boot s) !! name = rulers s !! name)
  ∧ ∀ st name,
      is_Some (rulers (Boot (NewService (V:=V) st)) !! name)
      ↔ name = randomRuler ∨ name = highestRuler.
Proof.
  unfold Boot. split_and!.
  - destruct (bootOnce s) eqn:E; [by rewrite E | done].
  - by destruct (bootOnce s) eqn:E.
  - by destruct (bootOnce s).
  - by destruct (bootOnce s).
  - intros name H1 H2. destruct (bootOnce s); [done |]. cbn [rulers].
    by rewrite !lookup_insert_ne.
  - intros st name. cbn [bootOnce NewService rulers]. split.
    + intros [f Hf]. apply bootRulers_lookup in Hf as [[-> _] | [-> _]];
        [by left | by right].
    + intros [-> | ->]; by eexists.
Qed.

(** X22. [NewService] succeeds exactly when the five dependencies are
    given; it fails with the invalid config error only, and the service it
    returns has the storage of the config, no piece and no ruler, and has
    not been booted. *)
Theorem NewServiceConfigured_checks (config : ServiceConfig) :
  ((∃ s : service V, NewServiceConfigured config = Ok s)
   ↔ is_Some (IDService config)
     ∧ is_Some (InstrumentorCollection config)
     ∧ is_Some (RandomService config)
     ∧ is_Some (StorageCollection config)
     ∧ is_Some (WorkerService config))
  ∧ (∀ e, NewServiceConfigured (V:=V) config = Err e → e = invalidConfigError)
  ∧ (∀ s : service V,
       NewServiceConfigured config = Ok s →
       StorageCollection config = Some (storage s)
       ∧ pieces s = ∅ ∧ rulers s = ∅ ∧ bootOnce s = false).
Proof.
  unfold NewServiceConfigured. split_and!.
  - split.
    + intros [s Hs]. repeat case_match; done.
    + intros ([a Ha] & [b Hb] & [c Hc] & [st Hd] & [w He]).
      rewrite Ha, Hb, Hc, Hd, He. by eexists.
  - intros e. repeat case_match; by intros [= <-].
  - intros s. repeat case_match; try done. by intros [= <-].
Qed.

End first_calls.

(** ** Shutdown *)

Lemma ShutdownTimes_closed n :
  ShutdownTimes n (mkShutdown true true) = Some (mkShutdown true true).
Proof. induction n as [|n IH]; [done | by simpl]. Qed.

(** X23. [Shutdown] closes the channel once: after [NewService] any number
    of calls of [Shutdown] in a row, one at least, leaves the channel
    closed; a call which follows a call changes nothing; and a call panics
    only when the channel has been closed by other means. *)
Theorem Shutdown_once (n : nat) :
  ShutdownTimes (S n) newShutdownState = Some (mkShutdown true true)
  ∧ (∀ l l', Shutdown l = Some l' → Shutdown l' = Some l')
  ∧ (∀ l, Shutdown l = None
          ↔ shutdownOnce l = false ∧ closerClosed l = true).
Proof.
  split_and!.
  - change (ShutdownTimes (S n) newShutdownState)
      with (ShutdownTimes n (mkShutdown true true)).
    apply ShutdownTimes_closed.
  - intros [[] []] l'; unfold Shutdown; simpl; by intros [= <-].
  - intros [[] []]; unfold Shutdown; simpl; split; try done; by intros [].
Qed.

(** ** The properties on the run of the service *)

Lemma Execute_returns_member_witness :
  is_Some (Storage.scoredSet (storage twoPieces)
             (pieceListKey (labelsToNamespace exampleLabels)) !! "p1")
  ∧ Storage.scalars (storage (Execute trialContext exampleLabels twoPieces).1)
    !! pieceUsedKey (labelsToNamespace exampleLabels) = Some "p1".
Proof.
  destruct (Execute_returns_member trialContext exampleLabels twoPieces
              "p1" []) as (H1 & H2 & _).
  - reflexivity.
  - vm_compute. reflexivity.
  - by split.
Defined.

Lemma Execute_highest_greatest_witness :
  ∃ sc, Storage.scoredSet (storage twoPiecesHighest)
          (pieceListKey (labelsToNamespace exampleLabels)) !! "p2" = Some sc
        ∧ ∀ member sc',
            Storage.scoredSet (storage twoPiecesHighest)
              (pieceListKey (labelsToNamespace exampleLabels)) !! member
            = Some sc' → (sc' ≤ sc)%Z.
Proof.
  apply (Execute_highest_greatest trialContext exampleLabels twoPiecesHighest
           "p2" []).
  - reflexivity.
  - vm_compute. reflexivity.
  - vm_compute. reflexivity.
Defined.

Lemma Execute_frame_witness :
  Storage.scoredSets (storage (Execute trialContext exampleLabels twoPieces).1)
  = Storage.scoredSets (storage twoPieces)
  ∧ pieces (Execute trialContext exampleLabels twoPieces).1 = pieces twoPieces.
Proof.
  destruct (Execute_frame trialContext exampleLabels twoPieces)
    as (H1 & H2 & _); [reflexivity |].
  by split.
Defined.

Lemma Execute_failure_witness :
  (Execute trialContext exampleLabels bootedService).1
  = withScalar bootedService (rulerUsedKey (labelsToNamespace exampleLabels))
      (resolvedRuler bootedService (labelsToNamespace exampleLabels)).
Proof.
  apply (Execute_failure trialContext exampleLabels bootedService
           notFoundError).
  - reflexivity.
  - vm_compute. reflexivity.
Defined.

Lemma Execute_before_Boot_witness :
  (Execute trialContext exampleLabels
     (Create trialContext exampleLabels "p1" ["val1"]
        (NewService (Storage.mk ∅ ∅ []))).1).2
  = Err notFoundError.
Proof.
  apply (Execute_before_Boot trialContext (currentstage.mk true false));
    reflexivity.
Defined.

Lemma Execute_then_Success_witness :
  (Success trialContext exampleLabels
     (Execute trialContext exampleLabels twoPieces).1).2 = Ok tt
  ∧ Storage.scoredSet (storage scoredService)
      (pieceListKey (labelsToNamespace exampleLabels)) !! "p1"
    = Some (score twoPieces (pieceListKey (labelsToNamespace exampleLabels))
              "p1" + 1)%Z.
Proof.
  apply (Execute_then_Success trialContext trialContext exampleLabels
           twoPieces "p1" []).
  - reflexivity.
  - vm_compute. reflexivity.
Defined.

Lemma Success_no_rollback_witness :
  (Success trialContext exampleLabels
     (Execute trialContext exampleLabels bootedService).1).2
  = Err notFoundError.
Proof.
  destruct (Success_no_rollback trialContext exampleLabels
              (Execute trialContext exampleLabels bootedService).1 "random")
    as (H & _).
  - vm_compute. reflexivity.
  - vm_compute. reflexivity.
  - exact H.
Defined.

Lemma Create_seeds_rulers_witness :
  Storage.scoredSet
    (storage (Create trialContext exampleLabels "p1" ["val1"]
                bootedService).1)
    (rulerListKey (labelsToNamespace exampleLabels)) !! "highest"
  = if decide (is_Some (rulers bootedService !! "highest"))
    then Some 0%Z else None.
Proof.
  apply (Create_seeds_rulers trialContext (currentstage.mk true false)
           exampleLabels "p1" ["val1"] bootedService); reflexivity.
Defined.

Lemma Create_keeps_rulers_witness :
  Storage.scoredSets
    (storage (Create trialContext exampleLabels "p3" ["val3"]
                scoredService).1)
  !! rulerListKey (labelsToNamespace exampleLabels)
  = Storage.scoredSets (storage scoredService)
    !! rulerListKey (labelsToNamespace exampleLabels).
Proof.
  apply (Create_keeps_rulers trialContext (currentstage.mk true false)
           exampleLabels "p3" ["val3"] scoredService); [reflexivity |].
  right. right. vm_compute. by eexists.
Defined.

Lemma Create_last_wins_witness :
  Create trialContext exampleLabels "p1" ["val3"]
    (Create trialContext exampleLabels "p1" ["val1"] bootedService).1
  = Create trialContext exampleLabels "p1" ["val3"] bootedService.
Proof.
  apply (Create_last_wins trialContext (currentstage.mk true false)).
  reflexivity.
Defined.

Lemma Delete_then_Execute_witness :
  (Execute replayContext exampleLabels
     (Delete trialContext exampleLabels scoredService).1).2
  = Err notFoundError.
Proof.
  apply (Delete_then_Execute trialContext replayContext
           (currentstage.mk false true)); reflexivity.
Defined.

Lemma Delete_keeps_other_pieces_witness :
  pieces (Delete trialContext ["stageB"] twoPieces).1
  !! appendToNamespace (pieceListKey (labelsToNamespace exampleLabels)) "p1"
  = pieces twoPieces
    !! appendToNamespace (pieceListKey (labelsToNamespace exampleLabels)) "p1".
Proof.
  apply Delete_keeps_other_pieces.
  - by repeat constructor.
  - by repeat constructor.
  - by vm_compute.
Defined.

Lemma namespace_isolation_witness :
  namespaceRecords (Delete trialContext ["stageB"] scoredService).1
    (labelsToNamespace exampleLabels)
  = namespaceRecords scoredService (labelsToNamespace exampleLabels).
Proof.
  destruct (namespace_isolation trialContext ["stageB"] exampleLabels
              "p1" ["val1"] scoredService) as (_ & _ & _ & H & _).
  - by vm_compute.
  - reflexivity.
  - exact H.
Defined.

Lemma Create_then_Execute_witness :
  (Create trialContext exampleLabels "p1" ["val1"] bootedService).2 = Ok tt
  ∧ ∃ chosen returned,
      (Execute trialContext exampleLabels
         (Create trialContext exampleLabels "p1" ["val1"] bootedService).1).2
      = Ok (chosen, returned).
Proof.
  apply (Create_then_Execute trialContext trialContext
           (currentstage.mk true false) (currentstage.mk true false));
    try reflexivity.
  intros name [sc Hsc]. vm_compute in Hsc. discriminate Hsc.
Defined.
